(** * Money tracker: the ledger core of [Money_tracker.py]

    A shallow embedding of the transaction store, the queries and the
    command handlers of the Streamlit script, and the properties of the
    ledger that its specification states.

    Modelling choices.
    - A transaction is the dictionary the script builds (keys [person],
      [amount], [date], [purpose], [is_repayment], [timestamp]); it is a
      record here.  Dates and timestamps are kept as the formatted text
      the script stores.
    - The ledger is read with exact arithmetic: amounts are rationals
      ([Q]); Python's numeric [==], [>], [<] are [Qeq_bool] and
      [Qle_bool].  What is proved of it about the value of a sum holds of
      the script up to the rounding of its floats; what is proved about
      which transactions are stored, matched, listed or removed does not
      depend on rounding.
    - The script's own arithmetic is binary64.  Module [Binary64] repeats
      the balance and the settlement with primitive floats, and the
      properties that depend on rounding are stated there.
    - [str.lower] is a parameter of the development ([lower]); the
      concrete examples instantiate it with ASCII lower-casing
      ([str_lower]).
    - [st.session_state.transactions] and the JSON data file form the
      explicit state threaded through the handlers. *)

From Stdlib Require Import Floats.
From Stdlib Require Import List String Ascii Bool Arith NArith Lia.
From Stdlib Require Import QArith Qabs Permutation Sorted Morphisms.
Import ListNotations.

Local Close Scope Q_scope.
Set Warnings "-inexact-float".
Local Open Scope list_scope.

(** ** Data model *)

(** The dictionary of lines 240-247 and 440-447. *)
Record Transaction : Type := {
  person : string;
  amount : Q;
  date : string;
  purpose : string;
  is_repayment : bool;
  timestamp : string
}.

(** ASCII instance of [str.lower], used by the concrete scenarios. *)
Definition ascii_lower (c : ascii) : ascii :=
  let n := nat_of_ascii c in
  if (65 <=? n)%nat && (n <=? 90)%nat then ascii_of_nat (n + 32) else c.

Fixpoint str_lower (s : string) : string :=
  match s with
  | EmptyString => EmptyString
  | String c s' => String (ascii_lower c) (str_lower s')
  end.

(** Python's built-in [sum] with exact arithmetic: a left fold that
    starts from [0].  The sums of floats are in [Binary64]. *)
Definition sum (xs : list Q) : Q := fold_left Qplus xs 0%Q.

(** [x > 0] and [x < 0] on amounts. *)
Definition Qltb (x y : Q) : bool := negb (Qle_bool y x).

(** [abs]. *)
Definition abs (x : Q) : Q := Qabs x.

(** The two options of the "Transaction Type" radio button. *)
Inductive TransactionType : Type :=
| GaveMoney      (* "I gave money (They owe me)" *)
| BorrowedMoney. (* "I borrowed money (I owe them)" *)

(** The test ["gave money" in transaction_type] on those two options. *)
Definition gave_money_in (transaction_type : TransactionType) : bool :=
  match transaction_type with
  | GaveMoney => true
  | BorrowedMoney => false
  end.

(** The values the sidebar form hands to its submit handler. *)
Module Form.
Record t : Type := {
  person_name : string;
  transaction_type : TransactionType;
  amount : Q;
  transaction_date : string;
  purpose : string;
  is_repayment : bool
}.
End Form.

(** What the handler shows: [st.success] or [st.error]. *)
Inductive Notice : Type :=
| success (text : string)
| error (text : string).

(** The data file as [load_data] meets it: missing, present but failing
    to open or to parse as a JSON object ([Unreadable]), or a JSON object
    whose ['transactions'] entry, when present, is the stored list. *)
Inductive Storage : Type :=
| Absent
| Unreadable
| Document (stored : option (list Transaction)).

(** The session's transaction list and the data file. *)
Record State : Type := {
  session_transactions : list Transaction;
  data_file : Storage
}.

(** Lines 101-102: a new session starts with an empty list. *)
Definition new_session (file : Storage) : State :=
  {| session_transactions := []; data_file := file |}.

(** [load_data] (lines 111-118). *)
Definition load_data (st : State) : State :=
  match data_file st with
  | Absent => st
  | Unreadable => st
  | Document stored =>
      {| session_transactions :=
           match stored with Some l => l | None => [] end;
         data_file := data_file st |}
  end.

(** [save_data] (lines 121-126); the write itself is assumed to succeed. *)
Definition save_data (st : State) : State :=
  {| session_transactions := session_transactions st;
     data_file := Document (Some (session_transactions st)) |}.

(** [st.session_state.transactions.append(t)]. *)
Definition append (t : Transaction) (st : State) : State :=
  {| session_transactions := session_transactions st ++ [t];
     data_file := data_file st |}.

(** The loop of lines 529-532: pop the first transaction carrying the
    timestamp, then [break]. *)
Fixpoint pop_by_timestamp (ts : string) (transactions : list Transaction)
  : list Transaction :=
  match transactions with
  | [] => []
  | t :: rest =>
      if String.eqb (timestamp t) ts then rest
      else t :: pop_by_timestamp ts rest
  end.

(** The delete button of the "All Transactions" tab (lines 528-534). *)
Definition del_trans (ts : string) (st : State) : State :=
  save_data {| session_transactions :=
                 pop_by_timestamp ts (session_transactions st);
               data_file := data_file st |}.

(** The transaction built by the submit handler (lines 235-247). *)
Definition new_transaction (now : string) (f : Form.t) : Transaction :=
  let actual_amount :=
    if gave_money_in (Form.transaction_type f) then Form.amount f
    else (- Form.amount f)%Q in
  {| person := Form.person_name f;
     amount := actual_amount;
     date := Form.transaction_date f;
     purpose := Form.purpose f;
     is_repayment := Form.is_repayment f;
     timestamp := now |}.

(** The guard [person_name and amount > 0] of line 233. *)
Definition required_fields_filled (f : Form.t) : bool :=
  negb (String.eqb (Form.person_name f) "") && Qltb 0 (Form.amount f).

(** The submit handler of the transaction form (lines 232-254).  The
    notice texts are the script's, without their leading pictograph; the
    [st.rerun()] that follows a save reloads what was just saved. *)
Definition submit (now : string) (f : Form.t) (st : State)
  : State * Notice :=
  if required_fields_filled f then
    (save_data (append (new_transaction now f) st),
     success ("Transaction added for " ++ Form.person_name f ++ "!")%string)
  else
    (st, error "Please fill in all required fields!").

(** The fields a validation error could name. *)
Inductive Field : Type := PersonField | AmountField | DateField.

(** ISO dates compare as text: [d <= today]. *)
Definition not_after (d today : string) : bool := String.leb d today.

(** Python's [max(first :: rest, key=key)]: the first maximal element. *)
Fixpoint max_by {A : Type} (key : A -> nat) (best : A) (rest : list A) : A :=
  match rest with
  | [] => best
  | x :: rest' =>
      if (key best <? key x)%nat then max_by key x rest'
      else max_by key best rest'
  end.

(** [list(set(xs))]: the distinct elements of [xs], each once, in an
    iteration order that Python leaves open. *)
Definition set_listing (xs listing : list string) : Prop :=
  NoDup listing /\ forall x, In x listing <-> In x xs.

(** The lambda of line 706: how many transactions carry exactly [p]. *)
Definition transaction_count (transactions : list Transaction) (p : string)
  : nat :=
  List.length (filter (fun t => String.eqb (person t) p) transactions).

(** Lines 261-263 and 661-663. *)
Definition total_given (transactions : list Transaction) : Q :=
  sum (map amount (filter (fun t => Qltb 0 (amount t)) transactions)).

Definition total_borrowed (transactions : list Transaction) : Q :=
  sum (map (fun t => abs (amount t))
           (filter (fun t => Qltb (amount t) 0) transactions)).

Definition net_position (transactions : list Transaction) : Q :=
  (total_given transactions - total_borrowed transactions)%Q.

Definition net_balance (transactions : list Transaction) : Q :=
  sum (map amount transactions).

(** The arithmetic sum of the amounts of a collection. *)
Fixpoint total_amount (l : list Transaction) : Q :=
  match l with
  | [] => 0%Q
  | t :: l' => (amount t + total_amount l')%Q
  end.

(** The timestamps of the stored transactions, in store order. *)
Definition timestamps (st : State) : list string :=
  map timestamp (session_transactions st).

(** How many stored transactions carry the timestamp [ts]. *)
Definition occurrences (ts : string) (transactions : list Transaction) : nat :=
  List.length (filter (fun t => String.eqb (timestamp t) ts) transactions).

(** The data file holds what the session holds, or nothing was ever
    saved and the session is still empty. *)
Definition in_step_with_file (st : State) : Prop :=
  (data_file st = Absent /\ session_transactions st = []) \/
  data_file st = Document (Some (session_transactions st)).

(** ** Further views of the store *)


(** A count as a number. *)
Definition count_Q (n : nat) : Q := inject_Z (Z.of_nat n).

(** Lines 635-637: the repayment rate, in percent. *)
Definition repayment_rate (transactions : list Transaction) : Q :=
  let total_trans := List.length transactions in
  let repayments := List.length (filter is_repayment transactions) in
  if (0 <? total_trans)%nat
  then (count_Q repayments / count_Q total_trans * 100)%Q
  else 0%Q.



(** Lines 506-507. *)
Definition apply_person_filter
    (person_filter : string) (rows : list Transaction)
  : list Transaction :=
  if negb (String.eqb person_filter "All")
  then filter (fun t => String.eqb (person t) person_filter) rows
  else rows.

(** Equality of two transaction dictionaries. *)
Definition transaction_eqb (a b : Transaction) : bool :=
  String.eqb (person a) (person b) &&
  Qeq_bool (amount a) (amount b) &&
  String.eqb (date a) (date b) &&
  String.eqb (purpose a) (purpose b) &&
  Bool.eqb (is_repayment a) (is_repayment b) &&
  String.eqb (timestamp a) (timestamp b).

(** [list.remove(trans)]: drop the first element equal to [trans]; raises
    [ValueError] when there is none ([None]). *)
Fixpoint list_remove (trans : Transaction) (l : list Transaction)
  : option (list Transaction) :=
  match l with
  | [] => None
  | t :: rest =>
      if transaction_eqb t trans then Some rest
      else match list_remove trans rest with
           | Some rest' => Some (t :: rest')
           | None => None
           end
  end.

(** The delete button of a person's transaction history (lines 425-428). *)
Definition del_person_trans (trans : Transaction) (st : State)
  : option State :=
  match list_remove trans (session_transactions st) with
  | Some l =>
      Some (save_data {| session_transactions := l;
                         data_file := data_file st |})
  | None => None
  end.


(** One such order, by insertion. *)
Fixpoint insert_desc (r : string * Q) (sorted : list (string * Q))
  : list (string * Q) :=
  match sorted with
  | [] => [r]
  | q :: rest =>
      if Qle_bool (snd q) (snd r) then r :: q :: rest
      else q :: insert_desc r rest
  end.

Definition sort_values_desc (rows : list (string * Q))
  : list (string * Q) :=
  fold_right insert_desc [] rows.


Definition i_owe (balance_df : list (string * Q)) : list (string * Q) :=
  firstn 5 (filter (fun r => Qltb (snd r) 0) balance_df).





(** ** Scenario data *)

Definition tx (p : string) (a : Q) (d ts : string) : Transaction :=
  {| person := p; amount := a; date := d; purpose := "";
     is_repayment := false; timestamp := ts |}.

Definition alice_lunch : Transaction :=
  {| person := "Alice"; amount := 20; date := "2024-01-01";
     purpose := "Lunch"; is_repayment := false;
     timestamp := "2024-01-01 12:00:00" |}.

Definition alice_back : Transaction :=
  tx "alice" (-5) "2024-01-02" "2024-01-02 09:30:00".

Definition bob_one : Transaction :=
  tx "Bob" 7 "2024-01-03" "2024-01-03 08:00:00".

Definition bob_two : Transaction :=
  tx "Bob" 3 "2024-01-04" "2024-01-04 08:00:00".

Definition alice_caps : Transaction :=
  tx "ALICE" 1 "2024-01-05" "2024-01-05 08:00:00".

Definition form_for (p : string) (a : Q) (d : string) : Form.t :=
  {| Form.person_name := p; Form.transaction_type := GaveMoney;
     Form.amount := a; Form.transaction_date := d;
     Form.purpose := ""; Form.is_repayment := false |}.

Definition empty_store : State := new_session Absent.

(** A state whose data file holds the session's list. *)
Definition saved (l : list Transaction) : State :=
  {| session_transactions := l; data_file := Document (Some l) |}.

Definition store_ab : list Transaction := [alice_lunch; alice_back].

Definition store_bob : list Transaction := [bob_one; alice_back; bob_two].

Definition store5 : list Transaction :=
  [alice_lunch; alice_back; bob_one; bob_two; alice_caps].

(** Two transactions recorded within the same second. *)
Definition twin_one : Transaction :=
  tx "Bob" 7 "2024-01-03" "2024-01-03 08:00:00".

Definition twin_two : Transaction :=
  tx "Carol" 4 "2024-01-03" "2024-01-03 08:00:00".

Definition twins : list Transaction :=
  [alice_lunch; twin_one; alice_back; twin_two].

(** A table of balances with six persons owed. *)
Definition balances_table : list (string * Q) :=
  [("Ann"%string, 5%Q); ("Ben"%string, (-1)%Q); ("Cy"%string, (-2)%Q);
   ("Di"%string, (-3)%Q); ("Ed"%string, (-4)%Q); ("Flo"%string, (-6)%Q);
   ("Gus"%string, (-9)%Q); ("Hal"%string, 2%Q)].

(** * The balance and the settlement in binary64

    The script computes with Python floats.  This module repeats the
    balance and the settlement with amounts as IEEE 754 binary64 numbers,
    rounding as the script does.  How the built-in [sum] rounds depends
    on the interpreter that runs the script: CPython up to version 3.11
    adds the floats from left to right ([sum_left_to_right]); CPython 3.12
    and later carry a compensation term along ([sum_compensated]).  The
    balance and the settlement take the [sum] of the interpreter as a
    parameter. *)

Module Binary64.

(** The dictionary of lines 240-247 and 440-447. *)
Record Transaction : Type := {
  person : string;
  amount : float;
  date : string;
  purpose : string;
  is_repayment : bool;
  timestamp : string
}.

(** The built-in [sum] of CPython up to 3.11: a left fold that starts
    from [0]. *)
Definition sum_left_to_right (xs : list float) : float :=
  fold_left PrimFloat.add xs 0%float.

(** One round of the float loop of the built-in [sum] of CPython 3.12 and
    later (Neumaier's summation): the running total [f_result] and the
    compensation [c], then the next item [x]. *)
Definition compensated_step (acc : float * float) (x : float)
  : float * float :=
  let (f_result, c) := acc in
  let t := PrimFloat.add f_result x in
  (t,
   if PrimFloat.leb (PrimFloat.abs x) (PrimFloat.abs f_result)
   then PrimFloat.add c (PrimFloat.add (PrimFloat.sub f_result t) x)
   else PrimFloat.add c (PrimFloat.add (PrimFloat.sub x t) f_result)).

(** The built-in [sum] of CPython 3.12 and later on a list of floats: the
    first item is added to the integer [0]; the float loop takes the
    others; the compensation is added at the end when it is neither zero
    nor infinite nor a NaN. *)
Definition sum_compensated (xs : list float) : float :=
  match xs with
  | [] => 0%float
  | x :: rest =>
      let (f_result, c) :=
        fold_left compensated_step rest
                  (PrimFloat.add 0%float x, 0%float) in
      if negb (PrimFloat.eqb c 0%float) && PrimFloat.is_finite c
      then PrimFloat.add f_result c
      else f_result
  end.

Inductive Storage : Type :=
| Absent
| Unreadable
| Document (stored : option (list Transaction)).

Record State : Type := {
  session_transactions : list Transaction;
  data_file : Storage
}.

(** [save_data] (lines 121-126). *)
Definition save_data (st : State) : State :=
  {| session_transactions := session_transactions st;
     data_file := Document (Some (session_transactions st)) |}.

(** [st.session_state.transactions.append(t)]. *)
Definition append (t : Transaction) (st : State) : State :=
  {| session_transactions := session_transactions st ++ [t];
     data_file := data_file st |}.

Section Balance.

(** [str.lower]. *)
Variable lower : string -> string.

(** The built-in [sum] of the interpreter. *)
Variable sum : list float -> float.

(** The comprehension guard [t['person'].lower() == person_name.lower()]. *)
Definition same_person (person_name : string) (t : Transaction) : bool :=
  String.eqb (lower (person t)) (lower person_name).

(** [calculate_person_balance] (lines 132-136). *)
Definition calculate_person_balance
    (transactions : list Transaction) (person_name : string)
  : float * list Transaction :=
  let person_transactions := filter (same_person person_name) transactions in
  let total := sum (map amount person_transactions) in
  (total, person_transactions).

(** The dictionary of lines 440-447. *)
Definition settlement (today now person_name : string) (balance : float)
  : Transaction :=
  {| person := person_name;
     amount := PrimFloat.opp balance;
     date := today;
     purpose := "Full settlement";
     is_repayment := true;
     timestamp := now |}.

(** The "Mark as Settled" handler (lines 439-451); [balance != 0] is the
    comparison of floats, true of a NaN. *)
Definition settle (today now person_name : string) (st : State) : State :=
  let (balance, _) :=
    calculate_person_balance (session_transactions st) person_name in
  if negb (PrimFloat.eqb balance 0%float) then
    save_data (append (settlement today now person_name balance) st)
  else st.

End Balance.

(** Scenario data. *)
Definition tx (p : string) (a : float) (ts : string) : Transaction :=
  {| person := p; amount := a; date := "2024-01-01"; purpose := "";
     is_repayment := false; timestamp := ts |}.

Definition saved (l : list Transaction) : State :=
  {| session_transactions := l; data_file := Document (Some l) |}.

Definition tenth : Transaction := tx "Alice" 0.1 "2024-01-01 09:00:00".
Definition fifth : Transaction := tx "Alice" 0.2 "2024-01-01 10:00:00".
Definition bob_half : Transaction := tx "Bob" 0.5 "2024-01-01 12:00:00".


End Binary64.

Section Ledger.

(** [str.lower]. *)
Variable lower : string -> string.

(** ** Helper functions (lines 132-141) *)

(** The comprehension guard [t['person'].lower() == person_name.lower()]. *)
Definition same_person (person_name : string) (t : Transaction) : bool :=
  String.eqb (lower (person t)) (lower person_name).

(** [calculate_person_balance] (lines 132-136) with exact arithmetic,
    reading the session's transaction list. *)
Definition calculate_person_balance
    (transactions : list Transaction) (person_name : string)
  : Q * list Transaction :=
  let person_transactions := filter (same_person person_name) transactions in
  let total := sum (map amount person_transactions) in
  (total, person_transactions).

(** [sorted(persons, key=str.lower)]: a stable sort, here by insertion. *)
Fixpoint insert_by_lower (p : string) (sorted : list string) : list string :=
  match sorted with
  | [] => [p]
  | q :: rest =>
      if String.leb (lower p) (lower q) then p :: q :: rest
      else q :: insert_by_lower p rest
  end.

Definition sorted_by_lower (persons : list string) : list string :=
  fold_right insert_by_lower [] persons.

(** The order [sorted(..., key=str.lower)] establishes. *)
Definition lower_le (p q : string) : Prop :=
  String.leb (lower p) (lower q) = true.

(** [get_all_persons] for one iteration order of the set (the order in
    which [nodup] lists it). *)
Definition get_all_persons (transactions : list Transaction) : list string :=
  let persons := nodup string_dec (map person transactions) in
  sorted_by_lower persons.

(** [get_all_persons] for every iteration order of the set. *)
Definition get_all_persons_result
    (transactions : list Transaction) (result : list string) : Prop :=
  exists persons,
    set_listing (map person transactions) persons /\
    result = sorted_by_lower persons.

(** Lines 705-706: [max(get_all_persons(), key=...)] when the list is not
    empty, given the list [get_all_persons()] returned. *)
Definition most_active_of
    (transactions : list Transaction) (persons : list string)
  : option string :=
  match persons with
  | [] => None
  | p :: rest => Some (max_by (transaction_count transactions) p rest)
  end.

Definition most_active (transactions : list Transaction) : option string :=
  most_active_of transactions (get_all_persons transactions).

(** The number of transactions the summary shows for a person (line 687):
    the length of the case-insensitive match. *)
Definition shown_count (transactions : list Transaction) (p : string) : nat :=
  List.length (snd (calculate_person_balance transactions p)).

(** ** Settlement (lines 439-451) *)

Definition settlement (today now person_name : string) (balance : Q)
  : Transaction :=
  {| person := person_name;
     amount := (- balance)%Q;
     date := today;
     purpose := "Full settlement";
     is_repayment := true;
     timestamp := now |}.

(** The "Mark as Settled" handler with exact arithmetic; the button
    exists only when [balance != 0].  The script tests the float balance
    ([Binary64.settle]), which can differ from zero where the exact one
    does not. *)
Definition settle (today now person_name : string) (st : State) : State :=
  let (balance, _) :=
    calculate_person_balance (session_transactions st) person_name in
  if negb (Qeq_bool balance 0) then
    save_data (append (settlement today now person_name balance) st)
  else st.

(** ** Commands and runs *)

Inductive Command : Type :=
| RecordCmd (now : string) (f : Form.t)
| DeleteCmd (ts : string)
| SettleCmd (today now person_name : string).

Definition step (st : State) (c : Command) : State :=
  match c with
  | RecordCmd now f => fst (submit now f st)
  | DeleteCmd ts => del_trans ts st
  | SettleCmd today now p => settle today now p st
  end.

Definition run (cmds : list Command) (st : State) : State :=
  fold_left step cmds st.

(** The clock reading ([datetime.now()]) at which a record or settle
    command is issued. *)
Definition clock_reading (c : Command) : list string :=
  match c with
  | RecordCmd now _ => [now]
  | DeleteCmd _ => []
  | SettleCmd _ now _ => [now]
  end.

Definition clock_readings (cmds : list Command) : list string :=
  flat_map clock_reading cmds.

(** ** Reference notions used in the statements *)

(** [matching name l m]: [m] consists of exactly the transactions of [l]
    whose person equals [name] up to case, in store order. *)
Inductive matching (name : string)
  : list Transaction -> list Transaction -> Prop :=
| matching_nil : matching name [] []
| matching_keep t l m :
    lower (person t) = lower name ->
    matching name l m -> matching name (t :: l) (t :: m)
| matching_skip t l m :
    lower (person t) <> lower name ->
    matching name l m -> matching name (t :: l) m.

(** ** Sums of amounts *)

Lemma fold_left_Qplus_start (xs : list Q) (a : Q) :
  (fold_left Qplus xs a == a + sum xs)%Q.
Proof.
  unfold sum. revert a.
  induction xs as [|x xs IH]; intros a; simpl.
  - ring.
  - rewrite (IH (a + x)%Q), (IH (0 + x)%Q). ring.
Qed.

Lemma sum_cons (x : Q) (xs : list Q) : (sum (x :: xs) == x + sum xs)%Q.
Proof.
  unfold sum at 1. simpl. rewrite fold_left_Qplus_start. ring.
Qed.

Lemma sum_single (x : Q) : (sum [x] == x)%Q.
Proof. unfold sum. simpl. ring. Qed.

Lemma sum_app (xs ys : list Q) : (sum (xs ++ ys) == sum xs + sum ys)%Q.
Proof.
  induction xs as [|x xs IH]; simpl.
  - unfold sum at 2. simpl. ring.
  - rewrite !sum_cons, IH. ring.
Qed.

Lemma sum_amounts (l : list Transaction) :
  (sum (map amount l) == total_amount l)%Q.
Proof.
  induction l as [|t l IH]; simpl.
  - reflexivity.
  - rewrite sum_cons, IH. reflexivity.
Qed.

Lemma total_amount_app (l m : list Transaction) :
  (total_amount (l ++ m) == total_amount l + total_amount m)%Q.
Proof.
  induction l as [|t l IH]; simpl.
  - ring.
  - rewrite IH. ring.
Qed.


(** ** Per-person balance *)

Lemma same_person_true (name : string) (t : Transaction) :
  same_person name t = true <-> lower (person t) = lower name.
Proof. unfold same_person. apply String.eqb_eq. Qed.

Lemma same_person_false (name : string) (t : Transaction) :
  same_person name t = false <-> lower (person t) <> lower name.
Proof. unfold same_person. apply String.eqb_neq. Qed.


(** [matching] determines its result. *)
Lemma matching_functional (name : string) (l m m' : list Transaction) :
  matching name l m -> matching name l m' -> m = m'.
Proof.
  intros H. revert m'.
  induction H as [|t l m Ht _ IH|t l m Ht _ IH]; intros m' H'.
  - now inversion H'.
  - inversion H'; subst; [f_equal; auto | contradiction].
  - inversion H'; subst; [contradiction | auto].
Qed.


(** ** Settlement *)

Lemma same_person_refl (name : string) (t : Transaction) :
  person t = name -> same_person name t = true.
Proof. intros <-. unfold same_person. apply String.eqb_refl. Qed.

Lemma balance_after_append (l : list Transaction) (t : Transaction)
    (name : string) :
  person t = name ->
  (fst (calculate_person_balance (l ++ [t]) name) ==
   fst (calculate_person_balance l name) + amount t)%Q.
Proof.
  intros Hp. unfold calculate_person_balance. simpl.
  rewrite filter_app. cbn [filter]. rewrite (same_person_refl name t Hp).
  rewrite map_app, sum_app. cbn [map]. rewrite sum_single. reflexivity.
Qed.

(** The settlement with exact arithmetic.  When the balance [b] of [P]
    is zero the state is returned as it is; otherwise exactly one
    transaction is appended, with amount [-b], today's date, purpose
    "Full settlement" and the repayment flag set; in both cases the
    balance of [P] afterwards is zero.  The settlement as the script
    rounds it is treated in the binary64 reading below. *)
Lemma settle_correct (today now P : string) (st : State) :
  let b := fst (calculate_person_balance (session_transactions st) P) in
  let st' := settle today now P st in
  ((b == 0)%Q -> st' = st) /\
  (~ (b == 0)%Q ->
   session_transactions st' =
   session_transactions st ++
     [{| person := P; amount := (- b)%Q; date := today;
         purpose := "Full settlement"; is_repayment := true;
         timestamp := now |}]) /\
  (fst (calculate_person_balance (session_transactions st') P) == 0)%Q.
Proof.
  intros b st'.
  assert (Hs : st' =
               if negb (Qeq_bool b 0)
               then save_data (append (settlement today now P b) st)
               else st).
  { subst st' b. unfold settle.
    now destruct (calculate_person_balance (session_transactions st) P). }
  rewrite Hs. clear Hs st'.
  destruct (Qeq_bool b 0) eqn:E; cbn [negb].
  - apply Qeq_bool_iff in E. split; [reflexivity|].
    split; [intros Hn; contradiction | exact E].
  - apply Qeq_bool_neq in E. split; [intros H0; contradiction|].
    split; [reflexivity|].
    cbn [save_data append session_transactions].
    rewrite balance_after_append by reflexivity.
    fold b. cbn [settlement amount]. ring.
Qed.

(** ** Aggregates *)

Lemma Qltb_true (x y : Q) : Qltb x y = true <-> (x < y)%Q.
Proof.
  unfold Qltb. rewrite negb_true_iff. split.
  - intros E. apply Qnot_le_lt. intros Hle.
    apply Qle_bool_iff in Hle. congruence.
  - intros Hlt. destruct (Qle_bool y x) eqn:E; [|reflexivity].
    apply Qle_bool_iff in E. exfalso. now apply (Qlt_not_le x y).
Qed.

Lemma Qltb_false (x y : Q) : Qltb x y = false <-> (y <= x)%Q.
Proof.
  unfold Qltb. rewrite negb_false_iff. apply Qle_bool_iff.
Qed.

Lemma total_given_cons (t : Transaction) (l : list Transaction) :
  (total_given (t :: l) ==
   (if Qltb 0 (amount t) then amount t else 0) + total_given l)%Q.
Proof.
  unfold total_given. simpl.
  destruct (Qltb 0 (amount t)); simpl; [rewrite sum_cons|]; ring.
Qed.

Lemma total_borrowed_cons (t : Transaction) (l : list Transaction) :
  (total_borrowed (t :: l) ==
   (if Qltb (amount t) 0 then abs (amount t) else 0) + total_borrowed l)%Q.
Proof.
  unfold total_borrowed. simpl.
  destruct (Qltb (amount t) 0); simpl; [rewrite sum_cons|]; ring.
Qed.

Lemma signed_parts (a : Q) :
  ((if Qltb 0 a then a else 0) - (if Qltb a 0 then abs a else 0) == a)%Q.
Proof.
  destruct (Qltb 0 a) eqn:Hpos, (Qltb a 0) eqn:Hneg.
  - apply Qltb_true in Hpos, Hneg. exfalso.
    apply (Qlt_irrefl 0). now apply Qlt_trans with a.
  - ring.
  - apply Qltb_true in Hneg. unfold abs.
    rewrite Qabs_neg by now apply Qlt_le_weak. ring.
  - apply Qltb_false in Hpos, Hneg.
    assert (a == 0)%Q as -> by now apply Qle_antisym. ring.
Qed.

(** C4. Total given minus total borrowed is the net position, and the
    net position is the plain sum of all amounts. *)
Theorem net_position_is_sum (transactions : list Transaction) :
  (total_given transactions - total_borrowed transactions ==
   net_position transactions)%Q /\
  (net_position transactions == net_balance transactions)%Q /\
  (net_balance transactions == total_amount transactions)%Q.
Proof.
  split; [reflexivity|].
  assert (Hsum : (net_balance transactions == total_amount transactions)%Q)
    by apply sum_amounts.
  split; [|exact Hsum].
  rewrite Hsum. unfold net_position.
  induction transactions as [|t l IH]; simpl.
  - unfold total_given, total_borrowed, sum. simpl. ring.
  - rewrite total_given_cons, total_borrowed_cons.
    specialize (IH (sum_amounts l)).
    pose proof (signed_parts (amount t)) as Ht.
    set (g := if Qltb 0 (amount t) then amount t else 0%Q) in *.
    set (b := if Qltb (amount t) 0 then abs (amount t) else 0%Q) in *.
    transitivity ((g - b) + (total_given l - total_borrowed l))%Q;
      [ring|].
    rewrite Ht, IH. reflexivity.
Qed.

(** ** Deleting by timestamp *)

Lemma pop_by_timestamp_absent (ts : string) (l : list Transaction) :
  occurrences ts l = 0 -> pop_by_timestamp ts l = l.
Proof.
  unfold occurrences.
  induction l as [|t l IH]; simpl; [reflexivity|].
  destruct (String.eqb (timestamp t) ts); simpl; [discriminate|].
  intros H. now rewrite IH.
Qed.

Lemma occurrences_pop (ts : string) (l : list Transaction) :
  occurrences ts (pop_by_timestamp ts l) = pred (occurrences ts l).
Proof.
  unfold occurrences.
  induction l as [|t l IH]; simpl; [reflexivity|].
  destruct (String.eqb (timestamp t) ts) eqn:E; simpl; [reflexivity|].
  now rewrite E.
Qed.

Lemma pop_by_timestamp_first (ts : string) (before after : list Transaction)
    (t : Transaction) :
  Forall (fun u => timestamp u <> ts) before ->
  timestamp t = ts ->
  pop_by_timestamp ts (before ++ t :: after) = before ++ after.
Proof.
  intros Hbefore Ht.
  induction Hbefore as [|u before Hu _ IH]; simpl.
  - apply String.eqb_eq in Ht. now rewrite Ht.
  - apply String.eqb_neq in Hu. rewrite Hu. now rewrite IH.
Qed.

(** A store that holds the timestamp splits at its first holder. *)
Lemma first_holder (ts : string) (l : list Transaction) :
  0 < occurrences ts l ->
  exists before t after,
    l = before ++ t :: after /\
    Forall (fun u => timestamp u <> ts) before /\
    timestamp t = ts.
Proof.
  unfold occurrences.
  induction l as [|t l IH]; simpl; [lia|].
  destruct (String.eqb (timestamp t) ts) eqn:E; simpl.
  - intros _. exists [], t, l.
    apply String.eqb_eq in E. repeat split; [constructor | exact E].
  - intros H. destruct (IH H) as [before [u [after [Hl [Hb Hu]]]]].
    exists (t :: before), u, after.
    apply String.eqb_neq in E.
    split; [simpl; now rewrite Hl|]. split; [now constructor | exact Hu].
Qed.

(** With two or more holders of the timestamp a second pop removes one
    more transaction. *)
Lemma pop_by_timestamp_twice (ts : string) (l : list Transaction) :
  2 <= occurrences ts l ->
  pop_by_timestamp ts (pop_by_timestamp ts l) <> pop_by_timestamp ts l.
Proof.
  intros H Heq.
  apply (f_equal (occurrences ts)) in Heq.
  rewrite !occurrences_pop in Heq. lia.
Qed.

(** When at most one stored transaction carries the timestamp [X],
    deleting [X] twice gives the same state as deleting it once; when
    none carries it, the delete leaves the collection as it is and only
    saves it again. *)
Lemma del_trans_idempotent_when_unique (X : string) (st : State) :
  occurrences X (session_transactions st) <= 1 ->
  del_trans X (del_trans X st) = del_trans X st /\
  (occurrences X (session_transactions st) = 0 ->
   del_trans X st = save_data st).
Proof.
  intros Hocc. unfold del_trans, save_data. simpl. split.
  - rewrite (pop_by_timestamp_absent X
               (pop_by_timestamp X (session_transactions st))).
    + reflexivity.
    + rewrite occurrences_pop. lia.
  - intros H0. now rewrite pop_by_timestamp_absent.
Qed.

(** C10. A delete removes only the first transaction, in store order,
    that carries the timestamp: everything before it, and everything
    after it (later transactions with the same timestamp included), stays
    in place. *)
Theorem del_trans_removes_first_only
    (X : string) (before after : list Transaction) (t : Transaction)
    (st : State) :
  session_transactions st = before ++ t :: after ->
  Forall (fun u => timestamp u <> X) before ->
  timestamp t = X ->
  session_transactions (del_trans X st) = before ++ after.
Proof.
  intros Hst Hbefore Ht. unfold del_trans, save_data. simpl.
  rewrite Hst. now apply pop_by_timestamp_first.
Qed.

(** ** Loading *)

Lemma load_data_after_save (st : State) :
  load_data (save_data st) = save_data st.
Proof. reflexivity. Qed.

(** C8, as the code has it. With the data file absent or unreadable,
    [load_data] leaves the session as it is, without any error; a new
    session therefore holds the empty collection.  Otherwise the session
    holds the transaction records of the document, none when the document
    has no such entry. *)
Theorem load_data_lenient (st : State) :
  (data_file st = Absent \/ data_file st = Unreadable ->
   load_data st = st) /\
  (forall file, file = Absent \/ file = Unreadable ->
   session_transactions (load_data (new_session file)) = []) /\
  (forall l, data_file st = Document (Some l) ->
   session_transactions (load_data st) = l) /\
  (data_file st = Document None ->
   session_transactions (load_data st) = []).
Proof.
  unfold load_data. repeat split.
  - intros [H|H]; now rewrite H.
  - intros file [H|H]; now rewrite H.
  - intros l H. now rewrite H.
  - intros H. now rewrite H.
Qed.

(** ** Recording *)

Lemma required_fields_filled_iff (f : Form.t) :
  required_fields_filled f = true <->
  Form.person_name f <> ""%string /\ (0 < Form.amount f)%Q.
Proof.
  unfold required_fields_filled.
  rewrite andb_true_iff, negb_true_iff, String.eqb_neq, Qltb_true.
  reflexivity.
Qed.

(** C7, as the code has it. The submit handler accepts a form exactly
    when the person name is not empty and the entered amount is positive.
    An accepted form appends exactly one transaction carrying the form's
    values and saves; a rejected form leaves session and data file
    untouched and shows one fixed message. *)
Theorem submit_outcome (now : string) (f : Form.t) (st : State) :
  (Form.person_name f <> ""%string /\ (0 < Form.amount f)%Q ->
   session_transactions (fst (submit now f st)) =
     session_transactions st ++
       [{| person := Form.person_name f;
           amount := if gave_money_in (Form.transaction_type f)
                     then Form.amount f else (- Form.amount f)%Q;
           date := Form.transaction_date f;
           purpose := Form.purpose f;
           is_repayment := Form.is_repayment f;
           timestamp := now |}] /\
   data_file (fst (submit now f st)) =
     Document (Some (session_transactions (fst (submit now f st))))) /\
  (~ (Form.person_name f <> ""%string /\ (0 < Form.amount f)%Q) ->
   submit now f st = (st, error "Please fill in all required fields!")).
Proof.
  unfold submit. destruct (required_fields_filled f) eqn:E.
  - split; [intros _; split; reflexivity|].
    intros Hn. apply required_fields_filled_iff in E. contradiction.
  - split; [|reflexivity].
    intros H. apply required_fields_filled_iff in H. congruence.
Qed.

(** ** Timestamps along a run *)

Lemma pop_by_timestamp_perm (ts : string) (l : list Transaction) :
  exists removed,
    Permutation (map timestamp l)
                (map timestamp (pop_by_timestamp ts l) ++ removed).
Proof.
  induction l as [|t l [removed IH]]; simpl.
  - exists []. constructor.
  - destruct (String.eqb (timestamp t) ts).
    + exists [timestamp t]. apply Permutation_cons_append.
    + exists removed. simpl. now constructor.
Qed.

Lemma timestamps_append (t : Transaction) (st : State) :
  timestamps (save_data (append t st)) = timestamps st ++ [timestamp t].
Proof. unfold timestamps. simpl. now rewrite map_app. Qed.

(** What a step does to the timestamps: those stored before and the
    clock reading taken are, up to order, those stored after and a rest
    that was dropped. *)
Lemma step_timestamps (c : Command) (st : State) :
  exists dropped,
    Permutation (timestamps st ++ clock_reading c)
                (timestamps (step st c) ++ dropped).
Proof.
  destruct c as [now f|ts|today now p]; simpl.
  - unfold submit. destruct (required_fields_filled f); simpl.
    + exists []. rewrite timestamps_append, app_nil_r. reflexivity.
    + exists [now]. reflexivity.
  - destruct (pop_by_timestamp_perm ts (session_transactions st))
      as [removed H].
    exists removed. rewrite app_nil_r. exact H.
  - unfold settle.
    destruct (calculate_person_balance (session_transactions st) p)
      as [balance pts].
    destruct (negb (Qeq_bool balance 0)).
    + exists []. rewrite timestamps_append, app_nil_r. reflexivity.
    + exists [now]. reflexivity.
Qed.

Lemma run_timestamps_unique (cmds : list Command) (st : State) :
  NoDup (timestamps st ++ clock_readings cmds) ->
  NoDup (timestamps (run cmds st)).
Proof.
  revert st.
  induction cmds as [|c cmds IH]; intros st H; simpl in *.
  - now rewrite app_nil_r in H.
  - apply IH.
    destruct (step_timestamps c st) as [dropped Hp].
    rewrite app_assoc in H.
    apply (Permutation_app_tail (clock_readings cmds)) in Hp.
    apply (Permutation_NoDup Hp) in H.
    rewrite <- app_assoc in H.
    apply NoDup_app_remove_l with (l := dropped).
    refine (Permutation_NoDup _ H).
    rewrite !app_assoc. apply Permutation_app_tail.
    apply Permutation_app_comm.
Qed.

(** Starting from the empty store, when the clock readings taken by the
    record and settle commands of a run are pairwise distinct, no two
    stored transactions share a timestamp. *)
Lemma timestamps_unique_when_clock_distinct (cmds : list Command) :
  NoDup (clock_readings cmds) ->
  NoDup (map timestamp (session_transactions (run cmds empty_store))).
Proof.
  intros H. apply (run_timestamps_unique cmds empty_store). exact H.
Qed.

(** ** The list of persons *)

Lemma insert_by_lower_perm (p : string) (l : list string) :
  Permutation (insert_by_lower p l) (p :: l).
Proof.
  induction l as [|q l IH]; simpl.
  - reflexivity.
  - destruct (String.leb (lower p) (lower q)).
    + reflexivity.
    + rewrite IH. apply perm_swap.
Qed.

Lemma sorted_by_lower_perm (l : list string) :
  Permutation (sorted_by_lower l) l.
Proof.
  induction l as [|p l IH]; simpl.
  - constructor.
  - rewrite insert_by_lower_perm. now constructor.
Qed.

Lemma insert_by_lower_sorted (p : string) (l : list string) :
  Sorted lower_le l -> Sorted lower_le (insert_by_lower p l).
Proof.
  induction 1 as [|q l Hl IH Hq]; simpl.
  - repeat constructor.
  - destruct (String.leb (lower p) (lower q)) eqn:E.
    + repeat constructor; assumption.
    + assert (Hqp : lower_le q p).
      { destruct (String.leb_total (lower p) (lower q)); congruence. }
      constructor; [exact IH|].
      destruct Hq as [|r l Hr]; simpl.
      * now constructor.
      * destruct (String.leb (lower p) (lower r)); now constructor.
Qed.

Lemma sorted_by_lower_sorted (l : list string) :
  Sorted lower_le (sorted_by_lower l).
Proof.
  induction l as [|p l IH]; simpl.
  - constructor.
  - now apply insert_by_lower_sorted.
Qed.

(** Whatever the iteration order of the set, [get_all_persons] returns
    the person texts that occur, each exact spelling once, ordered by
    their lower-cased form. *)
Lemma get_all_persons_result_spec
    (transactions : list Transaction) (result : list string) :
  get_all_persons_result transactions result ->
  NoDup result /\
  (forall p, In p result <-> In p (map person transactions)) /\
  Sorted lower_le result.
Proof.
  intros [persons [[Hnd Hin] ->]].
  pose proof (sorted_by_lower_perm persons) as Hp.
  split; [|split].
  - apply Permutation_sym in Hp. exact (Permutation_NoDup Hp Hnd).
  - intros p. rewrite <- Hin. split; apply Permutation_in;
      [exact Hp | now apply Permutation_sym].
  - apply sorted_by_lower_sorted.
Qed.

Lemma get_all_persons_is_result (transactions : list Transaction) :
  get_all_persons_result transactions (get_all_persons transactions).
Proof.
  exists (nodup string_dec (map person transactions)). split.
  - split; [apply NoDup_nodup | intros x; apply nodup_In].
  - reflexivity.
Qed.

(** ** The first maximum *)

Lemma max_by_first {A : Type} (key : A -> nat) (best : A) (rest : list A) :
  exists earlier later,
    best :: rest = earlier ++ max_by key best rest :: later /\
    Forall (fun y => key y < key (max_by key best rest)) earlier /\
    Forall (fun y => key y <= key (max_by key best rest)) later.
Proof.
  revert best.
  induction rest as [|x rest IH]; intros best; simpl.
  - exists [], []. repeat split; constructor.
  - destruct (key best <? key x) eqn:E.
    + apply Nat.ltb_lt in E.
      destruct (IH x) as [earlier [later [Heq [He Hl]]]].
      remember (max_by key x rest) as m eqn:Hm. clear Hm.
      exists (best :: earlier), later.
      split; [simpl; now rewrite Heq|]. split; [|exact Hl].
      constructor; [|exact He].
      destruct earlier as [|e earlier]; simpl in Heq.
      * injection Heq as Hx _. rewrite <- Hx. exact E.
      * injection Heq as Hx _. subst e.
        apply Forall_inv in He. lia.
    + apply Nat.ltb_ge in E.
      destruct (IH best) as [earlier [later [Heq [He Hl]]]].
      remember (max_by key best rest) as m eqn:Hm. clear Hm.
      destruct earlier as [|e earlier]; simpl in Heq.
      * injection Heq as Hb Hr. exists [], (x :: later).
        split; [simpl; now rewrite <- Hb, <- Hr|].
        split; [constructor|].
        constructor; [rewrite <- Hb; exact E | exact Hl].
      * injection Heq as Hb Hr. subst e.
        exists (best :: x :: earlier), later.
        split; [simpl; now rewrite Hr|]. split; [|exact Hl].
        pose proof (Forall_inv He) as Hbm. cbv beta in Hbm.
        constructor; [exact Hbm|].
        constructor; [lia | exact (Forall_inv_tail He)].
Qed.

Lemma max_by_in {A : Type} (key : A -> nat) (best : A) (rest : list A) :
  In (max_by key best rest) (best :: rest).
Proof.
  destruct (max_by_first key best rest) as [earlier [later [Heq _]]].
  pose proof (in_elt (max_by key best rest) earlier later) as H.
  now rewrite <- Heq in H.
Qed.

Lemma max_by_ge {A : Type} (key : A -> nat) (best : A) (rest : list A)
    (y : A) :
  In y (best :: rest) -> key y <= key (max_by key best rest).
Proof.
  destruct (max_by_first key best rest) as [earlier [later [Heq [He Hl]]]].
  rewrite Heq. intros Hy. apply in_app_or in Hy.
  rewrite Forall_forall in He, Hl.
  destruct Hy as [Hy|[Hy|Hy]].
  - specialize (He y Hy). lia.
  - subst y. lia.
  - exact (Hl y Hy).
Qed.

(** What [most_active_of] returns on a non-empty list of persons: a
    listed person whose count of transactions with exactly that spelling
    is maximal, and the first such in the list. *)
Lemma most_active_of_spec
    (transactions : list Transaction) (persons : list string) :
  persons <> [] ->
  exists m earlier later,
    most_active_of transactions persons = Some m /\
    persons = earlier ++ m :: later /\
    Forall (fun p => transaction_count transactions p <
                     transaction_count transactions m) earlier /\
    Forall (fun p => transaction_count transactions p <=
                     transaction_count transactions m) later.
Proof.
  destruct persons as [|p rest]; [congruence|]. intros _.
  destruct (max_by_first (transaction_count transactions) p rest)
    as [earlier [later H]].
  exists (max_by (transaction_count transactions) p rest), earlier, later.
  split; [reflexivity | exact H].
Qed.

(** ** What the commands do to the histories *)

Lemma others_after_append (l : list Transaction) (t : Transaction)
    (name : string) :
  lower (person t) <> lower name ->
  calculate_person_balance (l ++ [t]) name = calculate_person_balance l name.
Proof.
  intros Hne. apply same_person_false in Hne.
  unfold calculate_person_balance.
  rewrite filter_app. cbn [filter]. rewrite Hne. now rewrite app_nil_r.
Qed.

Lemma history_after_append (l : list Transaction) (t : Transaction)
    (name : string) :
  lower (person t) = lower name ->
  snd (calculate_person_balance (l ++ [t]) name) =
  snd (calculate_person_balance l name) ++ [t].
Proof.
  intros Hsame. apply same_person_true in Hsame.
  unfold calculate_person_balance. cbn [snd].
  rewrite filter_app. cbn [filter]. now rewrite Hsame.
Qed.

Lemma others_after_removal (before after : list Transaction)
    (t : Transaction) (name : string) :
  lower (person t) <> lower name ->
  calculate_person_balance (before ++ after) name =
  calculate_person_balance (before ++ t :: after) name.
Proof.
  intros Hne. apply same_person_false in Hne.
  unfold calculate_person_balance.
  rewrite !filter_app. cbn [filter]. now rewrite Hne.
Qed.

Lemma history_after_removal (before after : list Transaction)
    (t : Transaction) (name : string) :
  lower (person t) = lower name ->
  exists h1 h2,
    snd (calculate_person_balance (before ++ t :: after) name) =
      h1 ++ t :: h2 /\
    snd (calculate_person_balance (before ++ after) name) = h1 ++ h2.
Proof.
  intros Hsame. apply same_person_true in Hsame.
  exists (filter (same_person name) before),
         (filter (same_person name) after).
  unfold calculate_person_balance. cbn [snd].
  rewrite !filter_app. cbn [filter]. now rewrite Hsame.
Qed.

(** X1. An accepted form reaches exactly the histories of the names that
    equal its person up to case: the transactions matched for such a name
    are those matched before, followed by the new transaction; for every
    other name the balance and the matched transactions are those from
    before. *)
Theorem submit_reaches_one_history
    (now : string) (f : Form.t) (st : State) (name : string) :
  required_fields_filled f = true ->
  let before := session_transactions st in
  let after := session_transactions (fst (submit now f st)) in
  (lower (Form.person_name f) = lower name ->
   snd (calculate_person_balance after name) =
   snd (calculate_person_balance before name) ++ [new_transaction now f]) /\
  (lower (Form.person_name f) <> lower name ->
   calculate_person_balance after name =
   calculate_person_balance before name).
Proof.
  intros Hok before after.
  assert (Hafter : after = before ++ [new_transaction now f]).
  { subst after before. unfold submit. now rewrite Hok. }
  rewrite Hafter. split.
  - intros Hsame. now apply history_after_append.
  - intros Hother. now apply others_after_append.
Qed.

(** X2. Deleting a timestamp that the store holds removes exactly one
    transaction [t] carrying it: the histories of the names that equal
    [t]'s person up to case lose [t] and nothing else, and for every other
    name the balance and the matched transactions are those from
    before. *)
Theorem del_trans_shortens_one_history (X : string) (st : State) :
  0 < occurrences X (session_transactions st) ->
  exists t,
    In t (session_transactions st) /\ timestamp t = X /\
    S (List.length (session_transactions (del_trans X st))) =
      List.length (session_transactions st) /\
    forall name,
      (lower (person t) <> lower name ->
       calculate_person_balance
         (session_transactions (del_trans X st)) name =
       calculate_person_balance (session_transactions st) name) /\
      (lower (person t) = lower name ->
       exists h1 h2,
         snd (calculate_person_balance (session_transactions st) name) =
           h1 ++ t :: h2 /\
         snd (calculate_person_balance
                (session_transactions (del_trans X st)) name) = h1 ++ h2).
Proof.
  intros Hocc.
  destruct (first_holder X _ Hocc) as [before [t [after [Hl [Hb Ht]]]]].
  exists t.
  assert (Hdel : session_transactions (del_trans X st) = before ++ after).
  { unfold del_trans, save_data. cbn [session_transactions].
    rewrite Hl. now apply pop_by_timestamp_first. }
  rewrite Hdel, Hl. split; [apply in_elt|]. split; [exact Ht|]. split.
  - rewrite !length_app. cbn [List.length]. lia.
  - intros name. split.
    + intros Hother. now apply others_after_removal.
    + intros Hsame. now apply history_after_removal.
Qed.

(** ** Invariants of a run *)

Lemma pop_by_timestamp_keeps (P : Transaction -> Prop) (ts : string)
    (l : list Transaction) :
  Forall P l -> Forall P (pop_by_timestamp ts l).
Proof.
  induction 1 as [|t l Ht Hl IH]; simpl.
  - constructor.
  - destruct (String.eqb (timestamp t) ts); [exact Hl | now constructor].
Qed.

Lemma step_keeps_amounts_nonzero (c : Command) (st : State) :
  Forall (fun t => ~ (amount t == 0)%Q) (session_transactions st) ->
  Forall (fun t => ~ (amount t == 0)%Q) (session_transactions (step st c)).
Proof.
  intros H. destruct c as [now f|ts|today now p]; cbn [step].
  - unfold submit. destruct (required_fields_filled f) eqn:E;
      cbn [fst]; [|exact H].
    cbn [save_data append session_transactions].
    apply Forall_app. split; [exact H|]. constructor; [|constructor].
    apply required_fields_filled_iff in E. destruct E as [_ Hpos].
    cbn [new_transaction amount].
    destruct (gave_money_in (Form.transaction_type f)); intros H0.
    + rewrite H0 in Hpos. now apply (Qlt_irrefl 0).
    + assert (Form.amount f == 0)%Q as H1.
      { rewrite <- (Qopp_involutive (Form.amount f)), H0. reflexivity. }
      rewrite H1 in Hpos. now apply (Qlt_irrefl 0).
  - unfold del_trans, save_data. cbn [session_transactions].
    now apply pop_by_timestamp_keeps.
  - unfold settle.
    destruct (calculate_person_balance (session_transactions st) p)
      as [balance pts].
    destruct (Qeq_bool balance 0) eqn:E; cbn [negb]; [exact H|].
    cbn [save_data append session_transactions].
    apply Forall_app. split; [exact H|]. constructor; [|constructor].
    cbn [settlement amount]. intros H0. apply Qeq_bool_neq in E.
    apply E. rewrite <- (Qopp_involutive balance), H0. reflexivity.
Qed.

(** X4. Whatever record, delete and settle commands are run from the
    empty store, no stored transaction has amount zero. *)
Theorem stored_amounts_nonzero (cmds : list Command) :
  Forall (fun t => ~ (amount t == 0)%Q)
         (session_transactions (run cmds empty_store)).
Proof.
  unfold run.
  assert (H : Forall (fun t => ~ (amount t == 0)%Q)
                     (session_transactions empty_store)) by constructor.
  revert H. generalize empty_store.
  induction cmds as [|c cmds IH]; intros st H; cbn [fold_left].
  - exact H.
  - apply IH. now apply step_keeps_amounts_nonzero.
Qed.

Lemma save_data_in_step (st : State) : in_step_with_file (save_data st).
Proof. right. reflexivity. Qed.

Lemma step_keeps_in_step (c : Command) (st : State) :
  in_step_with_file st -> in_step_with_file (step st c).
Proof.
  intros H. destruct c as [now f|ts|today now p]; cbn [step].
  - unfold submit. destruct (required_fields_filled f); cbn [fst];
      [apply save_data_in_step | exact H].
  - apply save_data_in_step.
  - unfold settle.
    destruct (calculate_person_balance (session_transactions st) p)
      as [balance pts].
    destruct (negb (Qeq_bool balance 0));
      [apply save_data_in_step | exact H].
Qed.

(** X5. After any run of commands from the empty store the data file
    holds exactly the session's transactions (or nothing was saved yet and
    the session is empty), so loading again, as every rerun of the script
    does, leaves the state as it is. *)
Theorem reload_after_run (cmds : list Command) :
  in_step_with_file (run cmds empty_store) /\
  load_data (run cmds empty_store) = run cmds empty_store.
Proof.
  assert (H : in_step_with_file (run cmds empty_store)).
  { unfold run.
    assert (H0 : in_step_with_file empty_store) by (left; split; reflexivity).
    revert H0. generalize empty_store.
    induction cmds as [|c cmds IH]; intros st H0; cbn [fold_left].
    - exact H0.
    - apply IH. now apply step_keeps_in_step. }
  split; [exact H|].
  destruct (run cmds empty_store) as [l file].
  unfold in_step_with_file in H. cbn [data_file session_transactions] in H.
  destruct H as [[Hf Hl]|Hf]; unfold load_data;
    cbn [data_file]; rewrite Hf; reflexivity.
Qed.

(** ** Listed persons and their balances *)

Lemma transaction_count_positive (l : list Transaction) (p : string) :
  In p (map person l) -> 1 <= transaction_count l p.
Proof.
  unfold transaction_count.
  induction l as [|t l IH]; simpl; [intros []|].
  intros [Hp|Hp].
  - apply String.eqb_eq in Hp. rewrite Hp. simpl. lia.
  - destruct (String.eqb (person t) p); simpl; [lia | now apply IH].
Qed.

Lemma transaction_count_le_shown (l : list Transaction) (p : string) :
  transaction_count l p <= shown_count l p.
Proof.
  unfold transaction_count, shown_count, calculate_person_balance.
  cbn [snd].
  induction l as [|t l IH]; simpl; [lia|].
  destruct (String.eqb (person t) p) eqn:E.
  - apply String.eqb_eq in E.
    rewrite (same_person_refl p t E). simpl. lia.
  - destruct (same_person p t); simpl; lia.
Qed.

(** X6. Whatever the iteration order of the set, the list of persons is
    empty exactly when the store is, and every listed person has at least
    one transaction under that exact spelling, hence at least one among
    the transactions matched for the balance. *)
Theorem listed_persons_have_transactions
    (transactions : list Transaction) (result : list string) :
  get_all_persons_result transactions result ->
  (result = [] <-> transactions = []) /\
  forall p, In p result ->
    1 <= transaction_count transactions p /\
    transaction_count transactions p <= shown_count transactions p /\
    snd (calculate_person_balance transactions p) <> [].
Proof.
  intros Hres.
  apply get_all_persons_result_spec in Hres.
  destruct Hres as [_ [Hin _]].
  split.
  - split.
    + intros ->. destruct transactions as [|t l]; [reflexivity|].
      exfalso. apply (proj2 (Hin (person t))). now left.
    + intros ->. destruct result as [|p rest]; [reflexivity|].
      exfalso. apply (proj1 (Hin p)). now left.
  - intros p Hp. apply Hin in Hp.
    pose proof (transaction_count_positive transactions p Hp) as H1.
    pose proof (transaction_count_le_shown transactions p) as H2.
    split; [exact H1|]. split; [exact H2|].
    unfold shown_count in H2. intros Hnil. rewrite Hnil in H2.
    simpl in H2. lia.
Qed.

(** ** The order of the listed persons *)

Lemma ascii_compare_lt_trans (a b c : ascii) :
  Ascii.compare a b = Lt -> Ascii.compare b c = Lt -> Ascii.compare a c = Lt.
Proof.
  unfold Ascii.compare. rewrite !N.compare_lt_iff. apply N.lt_trans.
Qed.

Lemma string_leb_trans (s1 s2 s3 : string) :
  String.leb s1 s2 = true -> String.leb s2 s3 = true ->
  String.leb s1 s3 = true.
Proof.
  unfold String.leb. revert s2 s3.
  induction s1 as [|c1 s1 IH]; intros [|c2 s2] [|c3 s3]; simpl;
    try reflexivity; try discriminate.
  destruct (Ascii.compare c1 c2) eqn:E12; try discriminate.
  - apply Ascii.compare_eq_iff in E12. subst c2.
    destruct (Ascii.compare c1 c3); try discriminate; try reflexivity.
    apply IH.
  - intros _. destruct (Ascii.compare c2 c3) eqn:E23; try discriminate.
    + apply Ascii.compare_eq_iff in E23. subst c3. now rewrite E12.
    + intros _. now rewrite (ascii_compare_lt_trans c1 c2 c3).
Qed.

Lemma lower_le_refl (p : string) : lower_le p p.
Proof.
  unfold lower_le.
  destruct (String.leb_total (lower p) (lower p)); assumption.
Qed.

Lemma lower_le_trans (p q r : string) :
  lower_le p q -> lower_le q r -> lower_le p r.
Proof. unfold lower_le. apply string_leb_trans. Qed.

Lemma sorted_by_lower_strongly (l : list string) :
  StronglySorted lower_le (sorted_by_lower l).
Proof.
  apply Sorted_StronglySorted.
  - intros p q r. apply lower_le_trans.
  - apply sorted_by_lower_sorted.
Qed.

Lemma strongly_sorted_after (earlier later : list string) (m : string) :
  StronglySorted lower_le (earlier ++ m :: later) ->
  Forall (lower_le m) later.
Proof.
  induction earlier as [|e earlier IH]; simpl; intros H.
  - now inversion H.
  - inversion H; subst. now apply IH.
Qed.

(** X8. On a non-empty store, whatever the iteration order of the set,
    the most active person is a stored spelling whose number of
    transactions under exactly that spelling is maximal, and among the
    spellings with that number none comes before it in the order of the
    lower-cased names; on the empty store there is none. *)
Theorem most_active_is_first_maximum
    (transactions : list Transaction) (result : list string) :
  get_all_persons_result transactions result ->
  (transactions = [] -> most_active_of transactions result = None) /\
  (transactions <> [] ->
   exists m,
     most_active_of transactions result = Some m /\
     In m (map person transactions) /\
     (forall p, In p (map person transactions) ->
        transaction_count transactions p <=
        transaction_count transactions m) /\
     (forall p, In p (map person transactions) ->
        transaction_count transactions p =
        transaction_count transactions m -> lower_le m p)).
Proof.
  intros Hres.
  assert (Hstrong : StronglySorted lower_le result).
  { destruct Hres as [persons [_ ->]]. apply sorted_by_lower_strongly. }
  apply get_all_persons_result_spec in Hres.
  destruct Hres as [_ [Hin _]].
  split.
  - intros ->. destruct result as [|p rest]; [reflexivity|].
    exfalso. apply (proj1 (Hin p)). now left.
  - intros Hne.
    assert (Hres : result <> []).
    { intros ->. destruct transactions as [|t l]; [congruence|].
      apply (proj2 (Hin (person t))). now left. }
    destruct (most_active_of_spec transactions result Hres)
      as [m [earlier [later [Hm [Hsplit [He Hl]]]]]].
    exists m. split; [exact Hm|].
    rewrite Forall_forall in He, Hl.
    assert (Hcases : forall p, In p (map person transactions) ->
                       In p earlier \/ p = m \/ In p later).
    { intros p Hp. apply Hin in Hp. rewrite Hsplit in Hp.
      apply in_app_or in Hp. destruct Hp as [Hp|[Hp|Hp]]; auto. }
    split; [|split].
    + apply Hin. rewrite Hsplit. apply in_elt.
    + intros p Hp. destruct (Hcases p Hp) as [H|[H|H]].
      * specialize (He p H). lia.
      * subst p. lia.
      * exact (Hl p H).
    + intros p Hp Heq. destruct (Hcases p Hp) as [H|[H|H]].
      * specialize (He p H). lia.
      * subst p. apply lower_le_refl.
      * rewrite Hsplit in Hstrong.
        apply strongly_sorted_after in Hstrong.
        rewrite Forall_forall in Hstrong. now apply Hstrong.
Qed.

Lemma sorted_listing_unique (l1 l2 : list string) :
  StronglySorted lower_le l1 -> StronglySorted lower_le l2 ->
  Permutation l1 l2 -> NoDup (map lower l1) -> l1 = l2.
Proof.
  intros H1. revert l2.
  induction H1 as [|a l1 Hs1 IH Ha]; intros l2 H2 Hp Hnd.
  - now apply Permutation_nil in Hp.
  - destruct H2 as [|b l2 Hs2 Hb].
    + apply Permutation_sym, Permutation_nil in Hp. discriminate.
    + assert (Hab : a = b).
      { assert (Hin_a : In a (b :: l2))
          by (apply (Permutation_in _ Hp); now left).
        assert (Hin_b : In b (a :: l1))
          by (apply (Permutation_in _ (Permutation_sym Hp)); now left).
        destruct Hin_a as [Hin_a|Hin_a]; [now symmetry|].
        destruct Hin_b as [Hin_b|Hin_b]; [exact Hin_b|].
        rewrite Forall_forall in Ha, Hb.
        pose proof (String.leb_antisym _ _ (Ha b Hin_b) (Hb a Hin_a)) as Hk.
        exfalso. cbn [map] in Hnd. inversion Hnd as [|? ? Hnotin _]; subst.
        apply Hnotin. rewrite Hk. now apply in_map. }
      subst b. f_equal. apply IH.
      * exact Hs2.
      * now apply Permutation_cons_inv in Hp.
      * cbn [map] in Hnd. now inversion Hnd.
Qed.

(** X9. When no two stored spellings differ only by case, the list of
    persons does not depend on the iteration order of the set: any two
    lists [get_all_persons] can return for the store are equal. *)
Theorem listing_independent_of_set_order
    (transactions : list Transaction) (r1 r2 : list string) :
  get_all_persons_result transactions r1 ->
  get_all_persons_result transactions r2 ->
  NoDup (map lower r1) ->
  r1 = r2.
Proof.
  intros H1 H2 Hnd.
  assert (Hs1 : StronglySorted lower_le r1).
  { destruct H1 as [persons [_ ->]]. apply sorted_by_lower_strongly. }
  assert (Hs2 : StronglySorted lower_le r2).
  { destruct H2 as [persons [_ ->]]. apply sorted_by_lower_strongly. }
  apply get_all_persons_result_spec in H1, H2.
  destruct H1 as [Hn1 [Hi1 _]]. destruct H2 as [Hn2 [Hi2 _]].
  apply sorted_listing_unique; try assumption.
  apply NoDup_Permutation; try assumption.
  intros p. now rewrite Hi1, Hi2.
Qed.

(** ** The repayment rate *)

Lemma count_Q_positive (n : nat) : 0 < n -> (0 < count_Q n)%Q.
Proof.
  intros H. unfold count_Q.
  change 0%Q with (inject_Z 0). rewrite <- Zlt_Qlt. lia.
Qed.

Lemma count_Q_le (n m : nat) : n <= m -> (count_Q n <= count_Q m)%Q.
Proof. intros H. unfold count_Q. rewrite <- Zle_Qle. lia. Qed.

(** X12. The repayment rate lies between 0 and 100, so the value handed
    to the progress bar lies between 0 and 1; it is 0 on the empty store,
    without any division. *)
Theorem repayment_rate_bounds (transactions : list Transaction) :
  (0 <= repayment_rate transactions)%Q /\
  (repayment_rate transactions <= 100)%Q /\
  (0 <= repayment_rate transactions / 100)%Q /\
  (repayment_rate transactions / 100 <= 1)%Q /\
  repayment_rate [] = 0%Q.
Proof.
  assert (Hrate : (0 <= repayment_rate transactions)%Q /\
                  (repayment_rate transactions <= 100)%Q).
  { unfold repayment_rate.
    destruct (0 <? List.length transactions) eqn:E;
      [|split; discriminate].
    apply Nat.ltb_lt in E.
    pose proof (count_Q_positive _ E) as Hn.
    pose proof (count_Q_le _ _ (filter_length_le is_repayment transactions))
      as Hle.
    pose proof (count_Q_le 0 _ (Nat.le_0_l
                  (List.length (filter is_repayment transactions)))) as H0.
    change (count_Q 0) with 0%Q in H0.
    set (r := count_Q (List.length (filter is_repayment transactions))) in *.
    set (n := count_Q (List.length transactions)) in *.
    assert (Hfrac0 : (0 <= r / n)%Q).
    { apply Qle_shift_div_l; [exact Hn|]. now rewrite Qmult_0_l. }
    assert (Hfrac1 : (r / n <= 1)%Q).
    { apply Qle_shift_div_r; [exact Hn|]. now rewrite Qmult_1_l. }
    split.
    - apply Qmult_le_0_compat; [exact Hfrac0 | discriminate].
    - apply Qle_trans with (1 * 100)%Q; [|discriminate].
      apply Qmult_le_compat_r; [exact Hfrac1 | discriminate]. }
  destruct Hrate as [H0 H100].
  repeat split; try assumption.
  - apply Qle_shift_div_l; [reflexivity|]. now rewrite Qmult_0_l.
  - apply Qle_shift_div_r; [reflexivity|]. now rewrite Qmult_1_l.
Qed.

(** ** The type filter *)





(** ** The delete button of a person's history *)

Lemma transaction_eqb_refl (t : Transaction) : transaction_eqb t t = true.
Proof.
  unfold transaction_eqb.
  now rewrite !String.eqb_refl, Qeq_bool_refl, Bool.eqb_reflx.
Qed.

Lemma transaction_eqb_fields (u t : Transaction) :
  transaction_eqb u t = true ->
  person u = person t /\ (amount u == amount t)%Q /\
  timestamp u = timestamp t.
Proof.
  unfold transaction_eqb. rewrite !andb_true_iff.
  intros [[[[[Hp Ha] _] _] _] Hts].
  apply String.eqb_eq in Hp, Hts. apply Qeq_bool_iff in Ha. auto.
Qed.

Lemma list_remove_split (trans : Transaction) (l : list Transaction) :
  In trans l ->
  exists before u after,
    l = before ++ u :: after /\
    transaction_eqb u trans = true /\
    list_remove trans l = Some (before ++ after).
Proof.
  induction l as [|t l IH]; [intros []|].
  intros Hin. cbn [list_remove].
  destruct (transaction_eqb t trans) eqn:E.
  - exists [], t, l. auto.
  - destruct Hin as [Hin|Hin].
    + subst t. rewrite transaction_eqb_refl in E. discriminate.
    + destruct (IH Hin) as [before [u [after [Hl [Hu Hr]]]]].
      exists (t :: before), u, after. rewrite Hr, Hl. auto.
Qed.

Lemma list_remove_is_pop (trans : Transaction) (l : list Transaction) :
  NoDup (map timestamp l) -> In trans l ->
  list_remove trans l = Some (pop_by_timestamp (timestamp trans) l).
Proof.
  induction l as [|t l IH]; [intros _ []|].
  cbn [map]. intros Hnd Hin. inversion Hnd as [|? ? Hnotin Hnd']; subst.
  cbn [list_remove pop_by_timestamp].
  destruct (transaction_eqb t trans) eqn:E.
  - apply transaction_eqb_fields in E. destruct E as [_ [_ Hts]].
    apply String.eqb_eq in Hts. now rewrite Hts.
  - destruct Hin as [Hin|Hin].
    + subst t. rewrite transaction_eqb_refl in E. discriminate.
    + assert (Hts : String.eqb (timestamp t) (timestamp trans) = false).
      { apply String.eqb_neq. intros Heq. apply Hnotin.
        rewrite Heq. now apply in_map. }
      rewrite Hts, (IH Hnd' Hin). reflexivity.
Qed.

(** X15. While the stored timestamps are pairwise distinct, the two
    delete buttons do the same: deleting a stored transaction from its
    person's history gives the state that deleting its timestamp in the
    list of all transactions gives. *)
Theorem delete_buttons_agree (trans : Transaction) (st : State) :
  NoDup (timestamps st) ->
  In trans (session_transactions st) ->
  del_person_trans trans st = Some (del_trans (timestamp trans) st).
Proof.
  intros Hnd Hin. unfold del_person_trans, del_trans.
  now rewrite (list_remove_is_pop trans _ Hnd Hin).
Qed.

(** X14. The delete button of a person's history, pressed on a stored
    transaction, removes exactly one stored transaction [u] equal to it
    and saves the result: the histories of the names that equal [u]'s
    person up to case lose [u] and nothing else, and for every other name
    the balance and the matched transactions are those from before. *)
Theorem del_person_trans_shortens_one_history
    (trans : Transaction) (st : State) :
  In trans (session_transactions st) ->
  exists u st',
    del_person_trans trans st = Some st' /\
    In u (session_transactions st) /\
    transaction_eqb u trans = true /\
    data_file st' = Document (Some (session_transactions st')) /\
    S (List.length (session_transactions st')) =
      List.length (session_transactions st) /\
    forall name,
      (lower (person u) <> lower name ->
       calculate_person_balance (session_transactions st') name =
       calculate_person_balance (session_transactions st) name) /\
      (lower (person u) = lower name ->
       exists h1 h2,
         snd (calculate_person_balance (session_transactions st) name) =
           h1 ++ u :: h2 /\
         snd (calculate_person_balance (session_transactions st') name) =
           h1 ++ h2).
Proof.
  intros Hin.
  destruct (list_remove_split trans _ Hin)
    as [before [u [after [Hl [Hu Hr]]]]].
  exists u, (save_data {| session_transactions := before ++ after;
                          data_file := data_file st |}).
  unfold del_person_trans. rewrite Hr.
  cbn [save_data session_transactions data_file]. rewrite Hl.
  split; [reflexivity|]. split; [apply in_elt|]. split; [exact Hu|].
  split; [reflexivity|]. split.
  - rewrite !length_app. cbn [List.length]. lia.
  - intros name. split.
    + intros Hother. now apply others_after_removal.
    + intros Hsame. now apply history_after_removal.
Qed.

(** ** The histories of the listed persons *)

Lemma histories_without (t : Transaction) (l : list Transaction)
    (persons : list string) :
  Forall (fun p => lower (person t) <> lower p) persons ->
  flat_map (fun p => snd (calculate_person_balance (t :: l) p)) persons =
  flat_map (fun p => snd (calculate_person_balance l p)) persons.
Proof.
  induction 1 as [|p persons Hp _ IH]; cbn [flat_map]; [reflexivity|].
  rewrite IH. f_equal.
  unfold calculate_person_balance. cbn [snd filter].
  apply same_person_false in Hp. now rewrite Hp.
Qed.

Lemma histories_with (t : Transaction) (l : list Transaction)
    (persons : list string) :
  NoDup (map lower persons) ->
  In (lower (person t)) (map lower persons) ->
  Permutation
    (flat_map (fun p => snd (calculate_person_balance (t :: l) p)) persons)
    (t :: flat_map (fun p => snd (calculate_person_balance l p)) persons).
Proof.
  induction persons as [|p persons IH]; [intros _ []|].
  cbn [map flat_map]. intros Hnd Hin.
  inversion Hnd as [|? ? Hnotin Hnd']; subst.
  destruct (same_person p t) eqn:E.
  - apply same_person_true in E.
    rewrite histories_without.
    + unfold calculate_person_balance at 1. cbn [snd filter].
      apply same_person_true in E. rewrite E. reflexivity.
    + apply Forall_forall. intros q Hq Heq. apply Hnotin.
      rewrite <- E, Heq. now apply in_map.
  - assert (Hfirst : snd (calculate_person_balance (t :: l) p) =
                     snd (calculate_person_balance l p)).
    { unfold calculate_person_balance. cbn [snd filter]. now rewrite E. }
    rewrite Hfirst. apply same_person_false in E.
    destruct Hin as [Hin|Hin]; [now symmetry in Hin|].
    etransitivity;
      [apply Permutation_app_head; exact (IH Hnd' Hin)|].
    apply Permutation_sym, Permutation_middle.
Qed.

Lemma histories_cover (l : list Transaction) (persons : list string) :
  NoDup (map lower persons) ->
  (forall t, In t l -> In (person t) persons) ->
  Permutation
    (flat_map (fun p => snd (calculate_person_balance l p)) persons) l.
Proof.
  intros Hnd. induction l as [|t l IH]; intros Hall.
  - assert (Hnil : forall ps : list string,
               flat_map (fun p => snd (calculate_person_balance [] p)) ps
               = []).
    { induction ps as [|p ps IHps]; [reflexivity|].
      cbn [flat_map]. now rewrite IHps. }
    rewrite Hnil. constructor.
  - etransitivity.
    + apply histories_with; [exact Hnd|].
      apply in_map. apply Hall. now left.
    + constructor. apply IH. intros u Hu. apply Hall. now right.
Qed.

(** X7. While no two listed persons differ by case only, the histories
    shown for the listed persons divide the stored transactions among
    them: put one after the other, the lists of transactions matched for
    the listed persons hold every stored transaction exactly once. *)
Theorem histories_partition_store
    (transactions : list Transaction) (result : list string) :
  get_all_persons_result transactions result ->
  NoDup (map lower result) ->
  Permutation
    (flat_map (fun p => snd (calculate_person_balance transactions p))
              result)
    transactions.
Proof.
  intros Hres Hnd.
  destruct (get_all_persons_result_spec _ _ Hres) as [_ [Hin _]].
  apply histories_cover; [exact Hnd|].
  intros t Ht. apply Hin. now apply in_map.
Qed.

(** ** Recording, then deleting *)

Lemma occurrences_zero (ts : string) (l : list Transaction) :
  occurrences ts l = 0 -> Forall (fun u => timestamp u <> ts) l.
Proof.
  unfold occurrences.
  induction l as [|t l IH]; cbn [filter]; [constructor|].
  destruct (String.eqb (timestamp t) ts) eqn:E; cbn [List.length];
    [discriminate|].
  intros H. constructor; [now apply String.eqb_neq | now apply IH].
Qed.

(** X19. Deleting the timestamp of a transaction just recorded undoes the
    record when no older transaction carries that timestamp; when one
    does, the first such older transaction is removed instead and the new
    one stays. *)
Theorem delete_after_record (now : string) (f : Form.t) (st : State) :
  required_fields_filled f = true ->
  let st' := del_trans now (fst (submit now f st)) in
  (occurrences now (session_transactions st) = 0 ->
   session_transactions st' = session_transactions st) /\
  (0 < occurrences now (session_transactions st) ->
   exists before t after,
     session_transactions st = before ++ t :: after /\
     Forall (fun u => timestamp u <> now) before /\
     timestamp t = now /\
     session_transactions st' =
       before ++ after ++ [new_transaction now f]).
Proof.
  intros Hok st'.
  assert (Hs : session_transactions st' =
               pop_by_timestamp now
                 (session_transactions st ++ [new_transaction now f])).
  { subst st'. unfold submit. rewrite Hok. reflexivity. }
  rewrite Hs. split.
  - intros H0. apply occurrences_zero in H0.
    rewrite (pop_by_timestamp_first now _ [] (new_transaction now f) H0)
      by reflexivity.
    apply app_nil_r.
  - intros Hocc.
    destruct (first_holder now _ Hocc) as [before [t [after [Hl [Hb Ht]]]]].
    exists before, t, after. repeat split; try assumption.
    rewrite Hl, <- app_assoc. cbn [app].
    now rewrite (pop_by_timestamp_first now before _ t Hb Ht).
Qed.

End Ledger.

(** * The binary64 reading *)

(** A finite float and its opposite add up to zero. *)
Lemma SF64add_opposite (x : spec_float) :
  match x with
  | S754_zero _ | S754_finite _ _ _ => True
  | _ => False
  end ->
  SF64add x (SFopp x) = S754_zero false.
Proof.
  destruct x as [s|s| |s m e]; simpl; try tauto; intros _.
  - now destruct s.
  - unfold SF64add, SFadd.
    assert (H : forall p,
               (cond_Zopp s (Zpos p) + cond_Zopp (negb s) (Zpos p))%Z = 0%Z)
      by (intros p; destruct s; simpl; apply Z.pos_sub_diag).
    match goal with
    | |- binary_normalize _ _ ?z _ _ = _ =>
        replace z with 0%Z by (symmetry; apply H)
    end.
    reflexivity.
Qed.

Lemma finite_is_zero_or_finite (x : float) :
  PrimFloat.is_finite x = true ->
  match Prim2SF x with
  | S754_zero _ | S754_finite _ _ _ => True
  | _ => False
  end.
Proof.
  unfold PrimFloat.is_finite, PrimFloat.is_nan, PrimFloat.is_infinity.
  rewrite negb_true_iff, orb_false_iff, negb_false_iff.
  rewrite !FloatAxioms.eqb_spec, FloatAxioms.abs_spec.
  destruct (Prim2SF x) as [s|s| |s m e]; try tauto.
  - intros [_ H]. exfalso. simpl in H.
    change (Prim2SF infinity) with (S754_infinity false) in H.
    discriminate.
  - intros [H _]. discriminate.
Qed.

Lemma add_opposite_finite (x : float) :
  PrimFloat.is_finite x = true ->
  PrimFloat.eqb (PrimFloat.add x (PrimFloat.opp x)) 0%float = true.
Proof.
  intros H. apply finite_is_zero_or_finite in H.
  rewrite FloatAxioms.eqb_spec, FloatAxioms.add_spec, FloatAxioms.opp_spec.
  rewrite (SF64add_opposite _ H).
  reflexivity.
Qed.

Lemma sum_left_to_right_snoc (xs : list float) (x : float) :
  Binary64.sum_left_to_right (xs ++ [x]) =
  PrimFloat.add (Binary64.sum_left_to_right xs) x.
Proof. unfold Binary64.sum_left_to_right. now rewrite fold_left_app. Qed.

Section Binary64Properties.

Variable lower : string -> string.

Lemma binary64_history_after_append
    (l : list Binary64.Transaction) (t : Binary64.Transaction) :
  filter (Binary64.same_person lower (Binary64.person t)) (l ++ [t]) =
  filter (Binary64.same_person lower (Binary64.person t)) l ++ [t].
Proof.
  rewrite filter_app. cbn [filter]. unfold Binary64.same_person at 2.
  now rewrite String.eqb_refl.
Qed.

Lemma binary64_balance_after_append
    (l : list Binary64.Transaction) (t : Binary64.Transaction) :
  fst (Binary64.calculate_person_balance lower Binary64.sum_left_to_right
         (l ++ [t]) (Binary64.person t)) =
  PrimFloat.add
    (fst (Binary64.calculate_person_balance lower
            Binary64.sum_left_to_right l (Binary64.person t)))
    (Binary64.amount t).
Proof.
  unfold Binary64.calculate_person_balance. cbn [fst].
  rewrite binary64_history_after_append, map_app. cbn [map].
  apply sum_left_to_right_snoc.
Qed.

Lemma binary64_others_after_append
    (sum : list float -> float)
    (l : list Binary64.Transaction) (t : Binary64.Transaction)
    (name : string) :
  lower (Binary64.person t) <> lower name ->
  Binary64.calculate_person_balance lower sum (l ++ [t]) name =
  Binary64.calculate_person_balance lower sum l name.
Proof.
  intros Hne. apply String.eqb_neq in Hne.
  unfold Binary64.calculate_person_balance.
  assert (H : filter (Binary64.same_person lower name) [t] = []).
  { cbn [filter]. unfold Binary64.same_person. now rewrite Hne. }
  now rewrite filter_app, H, app_nil_r.
Qed.

Lemma binary64_settle_cases
    (sum : list float -> float) (today now P : string)
    (st : Binary64.State) :
  Binary64.settle lower sum today now P st =
  if negb (PrimFloat.eqb
             (fst (Binary64.calculate_person_balance lower sum
                     (Binary64.session_transactions st) P)) 0%float)
  then Binary64.save_data
         (Binary64.append
            (Binary64.settlement today now P
               (fst (Binary64.calculate_person_balance lower sum
                       (Binary64.session_transactions st) P))) st)
  else st.
Proof.
  unfold Binary64.settle.
  now destruct (Binary64.calculate_person_balance lower sum
                  (Binary64.session_transactions st) P).
Qed.

(** Under the left-to-right [sum], a finite balance is zero after the
    settlement. *)
Lemma binary64_settled_balance
    (today now P : string) (st : Binary64.State) :
  PrimFloat.is_finite
    (fst (Binary64.calculate_person_balance lower
            Binary64.sum_left_to_right
            (Binary64.session_transactions st) P)) = true ->
  PrimFloat.eqb
    (fst (Binary64.calculate_person_balance lower
            Binary64.sum_left_to_right
            (Binary64.session_transactions
               (Binary64.settle lower Binary64.sum_left_to_right
                  today now P st)) P)) 0%float = true.
Proof.
  intros Hfin. rewrite binary64_settle_cases.
  set (b := fst (Binary64.calculate_person_balance lower
                   Binary64.sum_left_to_right
                   (Binary64.session_transactions st) P)) in *.
  destruct (PrimFloat.eqb b 0%float) eqn:E; cbn [negb]; [exact E|].
  cbn [Binary64.save_data Binary64.append Binary64.session_transactions].
  change P with (Binary64.person (Binary64.settlement today now P b))
    at 2.
  rewrite binary64_balance_after_append.
  cbn [Binary64.settlement Binary64.person Binary64.amount]. fold b.
  now apply add_opposite_finite.
Qed.


(** X3. Settling [P] leaves every person whose name differs from [P]'s
    beyond case with the same balance and the same transactions, however
    the interpreter's [sum] rounds; and when [sum] adds from left to
    right and [P]'s balance is finite, settling [P] again changes
    nothing. *)
Theorem settle_leaves_the_others
    (today now today' now' P : string) (st : Binary64.State) :
  (forall (sum : list float -> float) (name : string),
     lower P <> lower name ->
     Binary64.calculate_person_balance lower sum
       (Binary64.session_transactions
          (Binary64.settle lower sum today now P st)) name =
     Binary64.calculate_person_balance lower sum
       (Binary64.session_transactions st) name) /\
  (let b := fst (Binary64.calculate_person_balance lower
                   Binary64.sum_left_to_right
                   (Binary64.session_transactions st) P) in
   let st' := Binary64.settle lower Binary64.sum_left_to_right
                today now P st in
   PrimFloat.is_finite b = true ->
   Binary64.settle lower Binary64.sum_left_to_right today' now' P st' =
   st').
Proof.
  split.
  - intros sum name Hother. rewrite binary64_settle_cases.
    destruct (negb _); [|reflexivity].
    cbn [Binary64.save_data Binary64.append Binary64.session_transactions].
    now apply binary64_others_after_append.
  - intros b st' Hfin.
    rewrite (binary64_settle_cases _ today' now' P st').
    subst st'. now rewrite (binary64_settled_balance today now P st Hfin).
Qed.

End Binary64Properties.

(** * The top balances *)

Lemma insert_desc_perm (r : string * Q) (l : list (string * Q)) :
  Permutation (insert_desc r l) (r :: l).
Proof.
  induction l as [|q l IH]; simpl; [reflexivity|].
  destruct (Qle_bool (snd q) (snd r)); [reflexivity|].
  rewrite IH. apply perm_swap.
Qed.

Lemma sort_values_desc_perm (rows : list (string * Q)) :
  Permutation (sort_values_desc rows) rows.
Proof.
  induction rows as [|r rows IH]; simpl; [constructor|].
  rewrite insert_desc_perm. now constructor.
Qed.












(** * The scenarios, with ASCII lower-casing *)

(** ** Balances *)


(** Scenarios A and B: the balance of "Alice" after the lunch, and after
    the amount taken back under the spelling "alice". *)
Example scenario_balances :
  calculate_person_balance str_lower
    (session_transactions
       (fst (submit "2024-01-01 12:00:00"
               {| Form.person_name := "Alice";
                  Form.transaction_type := GaveMoney;
                  Form.amount := 20;
                  Form.transaction_date := "2024-01-01";
                  Form.purpose := "Lunch";
                  Form.is_repayment := false |} empty_store)))
    "Alice" = (20%Q, [alice_lunch]) /\
  (fst (calculate_person_balance str_lower store_ab "Alice") == 15)%Q.
Proof. split; reflexivity. Qed.

(** ** Settlement *)

Lemma settle_correct_witness :
  session_transactions
    (settle str_lower "2024-01-03" "2024-01-03 10:00:00" "Alice"
       (saved store_ab)) =
  store_ab ++
    [{| person := "Alice";
        amount := (- fst (calculate_person_balance str_lower store_ab "Alice"))%Q;
        date := "2024-01-03"; purpose := "Full settlement";
        is_repayment := true; timestamp := "2024-01-03 10:00:00" |}] /\
  settle str_lower "2024-01-03" "2024-01-03 10:00:00" "Bob" (saved store_ab) =
  saved store_ab.
Proof.
  split.
  - apply (settle_correct str_lower "2024-01-03" "2024-01-03 10:00:00"
             "Alice" (saved store_ab)).
    vm_compute. discriminate.
  - apply (settle_correct str_lower "2024-01-03" "2024-01-03 10:00:00"
             "Bob" (saved store_ab)).
    reflexivity.
Defined.

(** Scenario C: settling "Alice" appends the amount -15 as a repayment,
    and her balance is zero afterwards. *)
Example scenario_settlement :
  let st' := settle str_lower "2024-01-03" "2024-01-03 10:00:00" "Alice"
               (saved store_ab) in
  (map amount (session_transactions st') = [20; -5; - (15)])%Q /\
  map is_repayment (session_transactions st') = [false; false; true] /\
  (fst (calculate_person_balance str_lower (session_transactions st') "Alice")
   == 0)%Q.
Proof. repeat split. Qed.

(** ** Balances and settlement in binary64 *)




Lemma settle_leaves_the_others_witness :
  let st := Binary64.saved [Binary64.tenth; Binary64.bob_half;
                            Binary64.fifth] in
  let st' := Binary64.settle str_lower Binary64.sum_left_to_right
               "2024-01-02" "2024-01-02 09:00:00" "Alice" st in
  Binary64.calculate_person_balance str_lower Binary64.sum_left_to_right
    (Binary64.session_transactions st') "bob" =
  (0.5%float, [Binary64.bob_half]) /\
  Binary64.settle str_lower Binary64.sum_left_to_right
    "2024-01-03" "2024-01-03 09:00:00" "Alice" st' = st'.
Proof.
  intros st st'.
  destruct (settle_leaves_the_others str_lower
              "2024-01-02" "2024-01-02 09:00:00"
              "2024-01-03" "2024-01-03 09:00:00" "Alice" st)
    as [Hothers Hagain].
  split.
  - subst st'. rewrite Hothers; [reflexivity | discriminate].
  - apply Hagain. vm_compute. reflexivity.
Defined.

(** With the compensated sum the second press of the button is not idle:
    it appends a settlement of the remainder. *)
Example settle_again_with_compensated_sum :
  let st' := Binary64.settle str_lower Binary64.sum_compensated
               "2024-01-02" "2024-01-02 09:00:00" "Alice"
               (Binary64.saved [Binary64.tenth; Binary64.fifth]) in
  map Binary64.amount
    (Binary64.session_transactions
       (Binary64.settle str_lower Binary64.sum_compensated
          "2024-01-03" "2024-01-03 09:00:00" "Alice" st')) =
  [0.1%float; 0.2%float; (-0.30000000000000004)%float;
   2.7755575615628914e-17%float].
Proof. vm_compute. reflexivity. Qed.

(** ** Deleting *)

(** C5 on the code. In a store where Bob's and Carol's transactions were
    recorded within the same second, the delete button of Carol's row in
    the list of all transactions removes Bob's transaction and keeps
    Carol's, whereas the delete button of the same transaction in
    Carol's history removes Carol's; and a second delete of the
    timestamp removes Carol's transaction too, so that twice differs
    from once. *)
Theorem del_trans_takes_timestamp_for_row :
  timestamp twin_two = timestamp twin_one /\
  session_transactions (del_trans (timestamp twin_two) (saved twins)) =
    [alice_lunch; alice_back; twin_two] /\
  del_person_trans twin_two (saved twins) =
    Some (saved [alice_lunch; twin_one; alice_back]) /\
  session_transactions
    (del_trans (timestamp twin_two)
       (del_trans (timestamp twin_two) (saved twins))) =
    [alice_lunch; alice_back] /\
  del_trans (timestamp twin_two)
    (del_trans (timestamp twin_two) (saved twins)) <>
  del_trans (timestamp twin_two) (saved twins).
Proof.
  repeat split; try reflexivity.
  vm_compute. discriminate.
Qed.

Lemma del_trans_idempotent_when_unique_witness :
  occurrences "2024-01-02 09:30:00" twins <= 1 /\
  del_trans "2024-01-02 09:30:00"
    (del_trans "2024-01-02 09:30:00" (saved twins)) =
  del_trans "2024-01-02 09:30:00" (saved twins).
Proof.
  split.
  - vm_compute. lia.
  - apply (del_trans_idempotent_when_unique "2024-01-02 09:30:00"
             (saved twins)).
    vm_compute. lia.
Defined.

Lemma del_trans_removes_first_only_witness :
  session_transactions (del_trans "2024-01-03 08:00:00" (saved twins)) =
  [alice_lunch] ++ [alice_back; twin_two].
Proof.
  apply (del_trans_removes_first_only "2024-01-03 08:00:00"
           [alice_lunch] [alice_back; twin_two] twin_one (saved twins)).
  - reflexivity.
  - repeat constructor. discriminate.
  - reflexivity.
Defined.

(** ** Loading *)

(** C8 fails on the code: a session that already holds a transaction
    keeps it when the data file is absent. *)
Lemma load_data_keeps_session :
  session_transactions
    (load_data {| session_transactions := [alice_lunch];
                  data_file := Absent |}) <> [].
Proof. vm_compute. discriminate. Qed.

Lemma load_data_lenient_witness :
  load_data {| session_transactions := [alice_lunch]; data_file := Absent |} =
  {| session_transactions := [alice_lunch]; data_file := Absent |} /\
  session_transactions (load_data (new_session Unreadable)) = [] /\
  session_transactions (load_data (saved store_ab)) = store_ab.
Proof.
  pose proof (load_data_lenient
                {| session_transactions := [alice_lunch];
                   data_file := Absent |}) as [Hkeep [Hnew _]].
  pose proof (load_data_lenient (saved store_ab)) as [_ [_ [Hdoc _]]].
  split; [apply Hkeep; left; reflexivity|].
  split; [apply Hnew; right; reflexivity|].
  apply Hdoc. reflexivity.
Defined.

(** ** Recording *)

(** C7 fails on the code: an empty person and a zero amount are rejected
    with the same message, so the message names neither field; and a form
    dated after today is accepted by the handler, which does not look at
    the date. *)
Lemma submit_rejection_names_no_field :
  (forall names : Notice -> Field,
     ~ (names (snd (submit "2024-01-01 10:00:00"
                      (form_for "" 5 "2024-01-01") empty_store))
        = PersonField /\
        names (snd (submit "2024-01-01 10:00:00"
                      (form_for "Bob" 0 "2024-01-01") empty_store))
        = AmountField)) /\
  not_after "2024-01-02" "2024-01-01" = false /\
  session_transactions
    (fst (submit "2024-01-01 10:00:00"
            (form_for "Bob" 5 "2024-01-02") empty_store)) =
  [tx "Bob" 5 "2024-01-02" "2024-01-01 10:00:00"].
Proof.
  split; [|split; reflexivity].
  intros names [Hp Ha].
  change (names (error "Please fill in all required fields!") = PersonField)
    in Hp.
  change (names (error "Please fill in all required fields!") = AmountField)
    in Ha.
  congruence.
Qed.

Lemma submit_outcome_witness :
  session_transactions
    (fst (submit "2024-01-03 08:00:00" (form_for "Bob" 7 "2024-01-03")
            (saved store_ab))) =
  store_ab ++ [bob_one] /\
  submit "2024-01-03 08:00:00" (form_for "Bob" 0 "2024-01-03")
    (saved store_ab) =
  (saved store_ab, error "Please fill in all required fields!").
Proof.
  split.
  - apply (submit_outcome "2024-01-03 08:00:00"
             (form_for "Bob" 7 "2024-01-03") (saved store_ab)).
    split; [discriminate | reflexivity].
  - apply (submit_outcome "2024-01-03 08:00:00"
             (form_for "Bob" 0 "2024-01-03") (saved store_ab)).
    intros [_ H]. vm_compute in H. discriminate.
Defined.

(** ** Timestamps *)

(** C9 on the code. Two forms submitted within the same second are both
    stored, under the same timestamp: the store reached is [twin_one]
    followed by [twin_two], its timestamps are not pairwise distinct,
    and deleting by the timestamp of Carol's transaction removes
    Bob's. *)
Theorem same_second_duplicates_timestamp :
  let st := run str_lower
              [RecordCmd "2024-01-03 08:00:00"
                 (form_for "Bob" 7 "2024-01-03");
               RecordCmd "2024-01-03 08:00:00"
                 (form_for "Carol" 4 "2024-01-03")]
              empty_store in
  session_transactions st = [twin_one; twin_two] /\
  ~ NoDup (map timestamp (session_transactions st)) /\
  session_transactions (del_trans (timestamp twin_two) st) = [twin_two].
Proof.
  split; [reflexivity|]. split; [|reflexivity].
  intros H. vm_compute in H.
  inversion H as [|? ? Hnotin _]. apply Hnotin. left. reflexivity.
Qed.

Lemma timestamps_unique_when_clock_distinct_witness :
  NoDup (map timestamp
           (session_transactions
              (run str_lower
                 [RecordCmd "2024-01-01 12:00:00"
                    (form_for "Alice" 20 "2024-01-01");
                  RecordCmd "2024-01-02 09:30:00"
                    (form_for "alice" 5 "2024-01-02");
                  SettleCmd "2024-01-03" "2024-01-03 10:00:00" "Alice";
                  DeleteCmd "2024-01-02 09:30:00"]
                 empty_store))).
Proof.
  apply (timestamps_unique_when_clock_distinct str_lower).
  simpl. repeat constructor; simpl; intuition discriminate.
Defined.

(** ** Persons *)

(** C2 on the code. After one transaction for "Alice" and one for
    "alice", [get_all_persons] returns both spellings, in whichever order
    the set yields them: the list is never the single name. *)
Theorem get_all_persons_keeps_case_variants (result : list string) :
  get_all_persons_result str_lower store_ab result ->
  (result = ["Alice"; "alice"]%string \/ result = ["alice"; "Alice"]%string) /\
  result <> ["Alice"%string].
Proof.
  intros [persons [[Hnd Hin] ->]].
  assert (Hp : Permutation ["Alice"; "alice"]%string persons).
  { apply NoDup_Permutation; [|exact Hnd|].
    - repeat constructor; simpl; intuition discriminate.
    - intros x. symmetry. apply Hin. }
  apply Permutation_length_2_inv in Hp.
  destruct Hp as [-> | ->]; (split; [|discriminate]).
  - left. reflexivity.
  - right. reflexivity.
Qed.

Lemma get_all_persons_keeps_case_variants_witness :
  get_all_persons str_lower store_ab <> ["Alice"%string].
Proof.
  apply (get_all_persons_keeps_case_variants
           (get_all_persons str_lower store_ab)).
  apply get_all_persons_is_result.
Defined.

(** What does hold of the list: every spelling once, ordered by its
    lower-cased form; with "Alice" alone, the list is that name. *)
Example get_all_persons_single_spelling :
  get_all_persons str_lower [alice_lunch; alice_lunch] = ["Alice"%string].
Proof. reflexivity. Qed.

(** C6 on the code. With three transactions for Alice under three
    spellings and two for "Bob", [most_active_of] returns "Bob" for every
    iteration order of the set, although the summary counts three
    transactions for Alice and two for Bob. *)
Theorem most_active_counts_exact_spelling (result : list string) :
  get_all_persons_result str_lower store5 result ->
  most_active_of store5 result = Some "Bob"%string /\
  shown_count str_lower store5 "Alice" = 3 /\
  shown_count str_lower store5 "Bob" = 2.
Proof.
  intros Hres. split; [|split; reflexivity].
  apply get_all_persons_result_spec in Hres.
  destruct Hres as [_ [Hin _]].
  destruct result as [|p rest].
  - exfalso. apply (proj2 (Hin "Bob"%string)).
    simpl. intuition.
  - simpl. f_equal.
    pose proof (max_by_in (transaction_count store5) p rest) as Hm.
    pose proof (max_by_ge (transaction_count store5) p rest "Bob"%string)
      as Hge.
    assert (Hbob : In "Bob"%string (p :: rest)).
    { apply Hin. simpl. intuition. }
    specialize (Hge Hbob).
    apply Hin in Hm. simpl in Hm.
    change (transaction_count store5 "Bob") with 2 in Hge.
    destruct Hm as [Hm|[Hm|[Hm|[Hm|[Hm|[]]]]]];
      rewrite <- Hm in *; try reflexivity;
      vm_compute in Hge; lia.
Qed.

Lemma most_active_counts_exact_spelling_witness :
  most_active str_lower store5 = Some "Bob"%string.
Proof.
  apply (most_active_counts_exact_spelling
           (get_all_persons str_lower store5)).
  apply get_all_persons_is_result.
Defined.

(** Scenario E: two transactions for "Bob" and one for "alice" make "Bob"
    the most active person, for every iteration order of the set. *)
Example scenario_most_active (result : list string) :
  get_all_persons_result str_lower store_bob result ->
  most_active_of store_bob result = Some "Bob"%string.
Proof.
  intros Hres.
  apply get_all_persons_result_spec in Hres.
  destruct Hres as [_ [Hin _]].
  destruct result as [|p rest].
  - exfalso. apply (proj2 (Hin "Bob"%string)). simpl. intuition.
  - simpl. f_equal.
    pose proof (max_by_in (transaction_count store_bob) p rest) as Hm.
    pose proof (max_by_ge (transaction_count store_bob) p rest "Bob"%string)
      as Hge.
    assert (Hbob : In "Bob"%string (p :: rest)).
    { apply Hin. simpl. intuition. }
    specialize (Hge Hbob).
    apply Hin in Hm. simpl in Hm.
    change (transaction_count store_bob "Bob") with 2 in Hge.
    destruct Hm as [Hm|[Hm|[Hm|[]]]];
      rewrite <- Hm in *; try reflexivity;
      vm_compute in Hge; lia.
Qed.

(** * Instances of the further properties *)

Lemma listed_persons_have_transactions_witness :
  In "ALICE"%string (get_all_persons str_lower store5) /\
  1 <= transaction_count store5 "ALICE" /\
  transaction_count store5 "ALICE" <= shown_count str_lower store5 "ALICE" /\
  snd (calculate_person_balance str_lower store5 "ALICE") <> [].
Proof.
  assert (H : In "ALICE"%string (get_all_persons str_lower store5))
    by (vm_compute; intuition).
  split; [exact H|].
  apply (listed_persons_have_transactions str_lower store5
           (get_all_persons str_lower store5)
           (get_all_persons_is_result str_lower store5)).
  exact H.
Defined.

Lemma most_active_is_first_maximum_witness :
  store_bob <> [] /\
  exists m,
    most_active_of store_bob (get_all_persons str_lower store_bob) = Some m /\
    In m (map person store_bob) /\
    (forall p, In p (map person store_bob) ->
       transaction_count store_bob p <= transaction_count store_bob m) /\
    (forall p, In p (map person store_bob) ->
       transaction_count store_bob p = transaction_count store_bob m ->
       lower_le str_lower m p).
Proof.
  assert (H : store_bob <> []) by discriminate.
  split; [exact H|].
  apply (most_active_is_first_maximum str_lower store_bob
           (get_all_persons str_lower store_bob)
           (get_all_persons_is_result str_lower store_bob)).
  exact H.
Defined.

Lemma other_listing_of_store_bob :
  get_all_persons_result str_lower store_bob
    (sorted_by_lower str_lower ["Bob"; "alice"]%string).
Proof.
  exists ["Bob"; "alice"]%string. split; [|reflexivity]. split.
  - repeat constructor; simpl; intuition discriminate.
  - intros x. simpl. intuition.
Qed.

Lemma listing_independent_of_set_order_witness :
  get_all_persons str_lower store_bob =
  sorted_by_lower str_lower ["Bob"; "alice"]%string.
Proof.
  apply (listing_independent_of_set_order str_lower store_bob).
  - apply get_all_persons_is_result.
  - apply other_listing_of_store_bob.
  - vm_compute. repeat constructor; simpl; intuition discriminate.
Defined.


Lemma delete_buttons_agree_witness :
  del_person_trans alice_back (saved store5) =
  Some (del_trans (timestamp alice_back) (saved store5)).
Proof.
  apply (delete_buttons_agree alice_back (saved store5)).
  - vm_compute. repeat constructor; simpl; intuition discriminate.
  - simpl. intuition.
Defined.


(** The six persons owed of the table: the one owed most, Gus, is the one
    left out. *)
Example i_owe_leaves_out_the_largest :
  map fst (i_owe (sort_values_desc balances_table)) =
  ["Ben"; "Cy"; "Di"; "Ed"; "Flo"]%string.
Proof. reflexivity. Qed.

Lemma delete_after_record_witness :
  required_fields_filled (form_for "Bob" 7 "2024-01-03") = true /\
  session_transactions
    (del_trans "2024-01-03 08:00:00"
       (fst (submit "2024-01-03 08:00:00" (form_for "Bob" 7 "2024-01-03")
               (saved store_ab)))) =
  session_transactions (saved store_ab).
Proof.
  split; [reflexivity|].
  apply (delete_after_record "2024-01-03 08:00:00"
           (form_for "Bob" 7 "2024-01-03") (saved store_ab));
    reflexivity.
Defined.

(** ** The histories *)

Lemma submit_reaches_one_history_witness :
  let after :=
    session_transactions
      (fst (submit "2024-01-03 08:00:00" (form_for "Bob" 7 "2024-01-03")
              (saved store_ab))) in
  snd (calculate_person_balance str_lower after "BOB") = [bob_one] /\
  calculate_person_balance str_lower after "Alice" =
  calculate_person_balance str_lower store_ab "Alice".
Proof.
  intros after. split.
  - apply (submit_reaches_one_history str_lower "2024-01-03 08:00:00"
             (form_for "Bob" 7 "2024-01-03") (saved store_ab) "BOB");
      reflexivity.
  - apply (submit_reaches_one_history str_lower "2024-01-03 08:00:00"
             (form_for "Bob" 7 "2024-01-03") (saved store_ab) "Alice");
      [reflexivity | discriminate].
Defined.

Lemma del_trans_shortens_one_history_witness :
  exists t,
    In t twins /\ timestamp t = "2024-01-03 08:00:00"%string /\
    S (List.length
         (session_transactions
            (del_trans "2024-01-03 08:00:00" (saved twins)))) =
      List.length twins /\
    forall name,
      (str_lower (person t) <> str_lower name ->
       calculate_person_balance str_lower
         (session_transactions
            (del_trans "2024-01-03 08:00:00" (saved twins))) name =
       calculate_person_balance str_lower twins name) /\
      (str_lower (person t) = str_lower name ->
       exists h1 h2,
         snd (calculate_person_balance str_lower twins name) =
           h1 ++ t :: h2 /\
         snd (calculate_person_balance str_lower
                (session_transactions
                   (del_trans "2024-01-03 08:00:00" (saved twins)))
                name) = h1 ++ h2).
Proof.
  apply (del_trans_shortens_one_history str_lower "2024-01-03 08:00:00"
           (saved twins)).
  vm_compute. lia.
Defined.

Lemma del_person_trans_shortens_one_history_witness :
  exists u st',
    del_person_trans alice_back (saved store_ab) = Some st' /\
    In u store_ab /\
    transaction_eqb u alice_back = true /\
    data_file st' = Document (Some (session_transactions st')) /\
    S (List.length (session_transactions st')) = List.length store_ab /\
    forall name,
      (str_lower (person u) <> str_lower name ->
       calculate_person_balance str_lower (session_transactions st') name =
       calculate_person_balance str_lower store_ab name) /\
      (str_lower (person u) = str_lower name ->
       exists h1 h2,
         snd (calculate_person_balance str_lower store_ab name) =
           h1 ++ u :: h2 /\
         snd (calculate_person_balance str_lower
                (session_transactions st') name) = h1 ++ h2).
Proof.
  apply (del_person_trans_shortens_one_history str_lower alice_back
           (saved store_ab)).
  right. left. reflexivity.
Defined.

Lemma histories_partition_store_witness :
  Permutation
    (flat_map
       (fun p => snd (calculate_person_balance str_lower store_bob p))
       (get_all_persons str_lower store_bob))
    store_bob.
Proof.
  apply (histories_partition_store str_lower store_bob
           (get_all_persons str_lower store_bob)).
  - apply get_all_persons_is_result.
  - vm_compute. repeat constructor; simpl; intuition discriminate.
Defined.

(** Where two listed persons differ by case only, each of them is shown
    the whole merged history, so the histories hold every such
    transaction twice. *)
Example histories_overlap_for_case_variants :
  flat_map
    (fun p => snd (calculate_person_balance str_lower store_ab p))
    (get_all_persons str_lower store_ab) =
  store_ab ++ store_ab.
Proof. reflexivity. Qed.
